(** * Lin_Interface: a LIN bus master on top of a UART

    Shallow embedding of [src/Lin_Interface.cpp] and [src/Lin_Interface.hpp].

    - C++ integers are [Z] with the wrap-around of their width written out.
    - The object of class [Lin_Interface] is a record; its base class
      [HardwareSerial] is one of the fields.
    - Member functions run in a state monad over that record with a fault
      outcome: indexing [LinMessage] outside its 13 cells is a fault, and so
      is a loop that is still running when its fuel is used up.
    - C++ gives no meaning to a read outside the array, and the functions
      above describe a call up to the first such read.  The module [Target]
      describes what the compiled code does from there on: the read returns
      the byte that lies at that address and the function carries on.
    - [Serial.printf] and friends only write to the console and are left out. *)

From Stdlib Require Import ZArith Lia Bool List Permutation.
From stdpp Require Import base tactics option list numbers.
From Equations Require Import Equations.
Import ListNotations.

Local Open Scope Z_scope.

(** ** Fixed-width integers *)

Definition uint8 (x : Z) : Z := x mod 2 ^ 8.
Definition uint16 (x : Z) : Z := x mod 2 ^ 16.
(** [unsigned long], 32 bits wide on the Arduino targets of this library. *)
Definition ulong (x : Z) : Z := x mod 2 ^ 32.

(** Modelled from the spec: the Arduino macro [bitRead(value, bit)], which
    comes with [Arduino.h] and is not part of this repository; the spec
    calls its result "bit n" of the value: [((value) >> (bit)) & 0x01]. *)
Definition bitRead (value bit : Z) : Z := Z.land (Z.shiftr value bit) 1.

(** ** FrameCodec: the protected identifier *)

Definition getProtectedID (FrameID : Z) : Z :=
  (* calc Parity Bit 0 *)
  let p0 := uint8 (Z.lxor (Z.lxor (Z.lxor (bitRead FrameID 0) (bitRead FrameID 1))
                                  (bitRead FrameID 2)) (bitRead FrameID 4)) in
  (* calc Parity Bit 1 *)
  let p1 := uint8 (Z.lnot (Z.lxor (Z.lxor (Z.lxor (bitRead FrameID 1) (bitRead FrameID 3))
                                          (bitRead FrameID 4)) (bitRead FrameID 5))) in
  (* combine bits to protected ID *)
  uint8 (Z.lor (Z.lor (Z.shiftl p1 7) (Z.shiftl p0 6)) (Z.land FrameID 0x3F)).

(** The parity bits the way the spec words them, on the bits of the
    identifier. *)
Definition parity_p0 (FrameID : Z) : bool :=
  xorb (xorb (xorb (Z.testbit FrameID 0) (Z.testbit FrameID 1)) (Z.testbit FrameID 2))
       (Z.testbit FrameID 4).

Definition parity_p1 (FrameID : Z) : bool :=
  negb (xorb (xorb (xorb (Z.testbit FrameID 1) (Z.testbit FrameID 3)) (Z.testbit FrameID 4))
             (Z.testbit FrameID 5)).

Definition protectedID_ok (FrameID : Z) : bool :=
  let r := getProtectedID FrameID in
  (Z.land r 0x3F =? FrameID)
  && eqb (Z.testbit r 6) (parity_p0 FrameID)
  && eqb (Z.testbit r 7) (parity_p1 FrameID)
  && (0 <=? r) && (r <? 256).

(** Exhaustive checks over a range of integers. *)
Definition all_in_range (P : Z → bool) (lo : Z) (n : nat) : bool :=
  forallb P (seqZ lo (Z.of_nat n)).

(** ** The object and its transport *)

(** Calls made on the transport, in the order they are made. *)
Inductive call : Type :=
  | Begin (baud : Z) (pins : option (Z * Z))
  | End_
  | Flush
  | UpdateBaudRate (baud : Z)
  | Write (b : Z).

(** Modelled from the spec: the transport collaborator of section 6
    ([writeByte], [readByteIfAvailable], [bytesAvailable], [setBaudRate],
    [flush], [now], [sleep]).  The class [HardwareSerial] and the functions
    [millis] and [delay] belong to the Arduino core, not to this repository.
    - [clock] is what [millis()] returns, an [unsigned long] counting
      milliseconds;
    - [rx_fifo] holds the bytes received and not yet read;
    - [wire] holds the bytes still to arrive, each with the delay in
      milliseconds after the arrival of the one before it;
    - [calls] records the calls made on the transport. *)
Record HardwareSerial : Type := {
  clock : Z;
  rx_fifo : list Z;
  wire : list (Z * Z);
  calls : list call
}.

Record Lin_Interface : Type := {
  serial : HardwareSerial;
  verboseMode : Z;
  baud : Z;
  rxPin : Z;
  txPin : Z;
  (* 8 Data Bytes + ChkSum + some space for receiving complete frames *)
  LinMessage : list Z;
  LinMessageID : Z;
  LinMessageSize : Z
}.

Definition set_serial (h : HardwareSerial) (o : Lin_Interface) : Lin_Interface :=
  {| serial := h; verboseMode := verboseMode o; baud := baud o; rxPin := rxPin o;
     txPin := txPin o; LinMessage := LinMessage o; LinMessageID := LinMessageID o;
     LinMessageSize := LinMessageSize o |}.

Definition set_verboseMode (v : Z) (o : Lin_Interface) : Lin_Interface :=
  {| serial := serial o; verboseMode := v; baud := baud o; rxPin := rxPin o;
     txPin := txPin o; LinMessage := LinMessage o; LinMessageID := LinMessageID o;
     LinMessageSize := LinMessageSize o |}.

Definition set_LinMessage (m : list Z) (o : Lin_Interface) : Lin_Interface :=
  {| serial := serial o; verboseMode := verboseMode o; baud := baud o; rxPin := rxPin o;
     txPin := txPin o; LinMessage := m; LinMessageID := LinMessageID o;
     LinMessageSize := LinMessageSize o |}.

Definition set_LinMessageID (v : Z) (o : Lin_Interface) : Lin_Interface :=
  {| serial := serial o; verboseMode := verboseMode o; baud := baud o; rxPin := rxPin o;
     txPin := txPin o; LinMessage := LinMessage o; LinMessageID := v;
     LinMessageSize := LinMessageSize o |}.

Definition set_LinMessageSize (v : Z) (o : Lin_Interface) : Lin_Interface :=
  {| serial := serial o; verboseMode := verboseMode o; baud := baud o; rxPin := rxPin o;
     txPin := txPin o; LinMessage := LinMessage o; LinMessageID := LinMessageID o;
     LinMessageSize := v |}.

(** The object as the header declares it, on a given transport. *)
Definition new_Lin_Interface (h : HardwareSerial) : Lin_Interface :=
  {| serial := h; verboseMode := -1; baud := 19200; rxPin := -1; txPin := -1;
     LinMessage := replicate (8 + 1 + 4) 0; LinMessageID := 0; LinMessageSize := 0 |}.

(** ** The monad of member functions *)

Inductive fault : Type :=
  | OutOfBounds (index : Z)   (* LinMessage[index] outside the array *)
  | OutOfFuel.                (* the loop was still running *)

Inductive outcome (A : Type) : Type :=
  | Ok (a : A)
  | Fault (f : fault).
Arguments Ok {A} a.
Arguments Fault {A} f.

Definition M (A : Type) : Type := Lin_Interface → outcome A * Lin_Interface.

#[global] Instance M_ret : MRet M := λ A a o, (Ok a, o).
#[global] Instance M_bind : MBind M := λ A B f m o,
  match m o with
  | (Ok a, o') => f a o'
  | (Fault e, o') => (Fault e, o')
  end.

Definition raise {A} (e : fault) : M A := λ o, (Fault e, o).
Definition gets {A} (f : Lin_Interface → A) : M A := λ o, (Ok (f o), o).
Definition modify (f : Lin_Interface → Lin_Interface) : M unit := λ o, (Ok tt, f o).

(** What a loop body asks for next. *)
Inductive ctl (L : Type) : Type :=
  | Continue (l : L)
  | Break (l : L).
Arguments Continue {L} l.
Arguments Break {L} l.

(** [while (cond) body], on the local variables [l] of the loop. *)
Fixpoint while_ {L} (fuel : nat) (cond : L → M bool) (body : L → M (ctl L)) (l : L) : M L :=
  match fuel with
  | O => raise OutOfFuel
  | S fuel' =>
      c ← cond l;
      if c : bool then
        r ← body l;
        match r with
        | Continue l' => while_ fuel' cond body l'
        | Break l' => mret l'
        end
      else mret l
  end.

(** [for (int i = start; i < start + n; ++i) body]. *)
Fixpoint for_ (n : nat) (i : Z) (body : Z → M unit) : M unit :=
  match n with
  | O => mret tt
  | S n' => body i;; for_ n' (i + 1) body
  end.

(** ** Transport operations *)

(** The bytes of [w] that arrive within [d] milliseconds, and the rest. *)
Fixpoint arrive (d : Z) (w : list (Z * Z)) : list Z * list (Z * Z) :=
  match w with
  | [] => ([], [])
  | (gap, b) :: w' =>
      if gap <=? d
      then let '(got, rest) := arrive (d - gap) w' in (b :: got, rest)
      else ([], (gap - d, b) :: w')
  end.

Definition elapse (d : Z) (h : HardwareSerial) : HardwareSerial :=
  let '(got, rest) := arrive d (wire h) in
  {| clock := ulong (clock h + d); rx_fifo := rx_fifo h ++ got; wire := rest;
     calls := calls h |}.

Definition log (c : call) (h : HardwareSerial) : HardwareSerial :=
  {| clock := clock h; rx_fifo := rx_fifo h; wire := wire h; calls := calls h ++ [c] |}.

Definition pop (h : HardwareSerial) : HardwareSerial :=
  {| clock := clock h; rx_fifo := tail (rx_fifo h); wire := wire h; calls := calls h |}.

Definition on_serial (f : HardwareSerial → HardwareSerial) : M unit :=
  modify (λ o, set_serial (f (serial o)) o).

(** Modelled from the spec: [sleep] of the transport contract, Arduino's
    [delay(ms)]: [ms] milliseconds pass. *)
Definition delay (ms : Z) : M unit := on_serial (elapse ms).

(** Modelled from the spec: [now] of the transport contract, Arduino's
    [millis()].  Two readings in a row are one millisecond apart, so that a
    loop polling the clock sees every value of it. *)
Definition millis : M Z := on_serial (elapse 1);; gets (λ o, clock (serial o)).

(** Modelled from the spec: [bytesAvailable] of the transport contract. *)
Definition available : M bool :=
  gets (λ o, match rx_fifo (serial o) with [] => false | _ :: _ => true end).

(** Modelled from the spec: [readByteIfAvailable] of the transport contract,
    [int HardwareSerial::read()]: the next byte, or -1 when there is none. *)
Definition read : M Z :=
  r ← gets (λ o, match rx_fifo (serial o) with [] => -1 | b :: _ => b end);
  on_serial pop;;
  mret r.

(** Modelled from the spec: [writeByte], [flush] and [setBaudRate] of the
    transport contract, and the opening and closing of the UART; each call
    is recorded, [write] returns the number of bytes written. *)
Definition write (b : Z) : M Z := on_serial (log (Write b));; mret 1.
Definition flush : M unit := on_serial (log Flush).
Definition updateBaudRate (b : Z) : M unit := on_serial (log (UpdateBaudRate b)).
Definition begin (b : Z) (pins : option (Z * Z)) : M unit := on_serial (log (Begin b pins)).
Definition end_ : M unit := on_serial (log End_).

(** ** The buffer [LinMessage] *)

(** [uint8_t LinMessage[8 + 1 + 4]]: indexing outside the array is a fault.
    The code has no bounds check; a fault marks the first index outside the
    array and the run is followed no further.  What the compiled code does
    after a read outside the array is in the module [Target] below. *)
Definition LinMessage_cells : Z := 8 + 1 + 4.

Definition LinMessage_get (i : Z) : M Z :=
  if (0 <=? i) && (i <? LinMessage_cells)
  then m ← gets LinMessage; mret (default 0 (m !! Z.to_nat i))
  else raise (OutOfBounds i).

Definition LinMessage_set (i : Z) (v : Z) : M unit :=
  if (0 <=? i) && (i <? LinMessage_cells)
  then modify (λ o, set_LinMessage (<[Z.to_nat i := v]> (LinMessage o)) o)
  else raise (OutOfBounds i).

(** ** FrameCodec: the checksum *)

(** [while (dataLen-- > 0) sum += LinMessage[dataLen];] on a [uint16_t] sum. *)
Fixpoint sum_bytes (dataLen : nat) (sum : Z) : M Z :=
  match dataLen with
  | O => mret sum
  | S dataLen' =>
      b ← LinMessage_get (Z.of_nat dataLen');
      sum_bytes dataLen' (uint16 (sum + b))
  end.

(** [while (sum >> 8) sum = (sum & 0xFF) + (sum >> 8);] *)
Equations? fold_carry (sum : Z) : Z by wf (Z.to_nat sum) lt :=
  fold_carry sum with Z_lt_dec 0 (Z.shiftr sum 8) := {
    | left _ => fold_carry (uint16 (Z.land sum 0xFF + Z.shiftr sum 8))
    | right _ => sum
  }.
Proof.
  rewrite Z.shiftr_div_pow2 in * by lia.
  change 255 with (Z.ones 8). rewrite Z.land_ones by lia.
  assert (0 ≤ sum) by (destruct (Z_lt_dec sum 0); [|lia];
    assert (sum `div` 2 ^ 8 < 0) by (apply Z.div_lt_upper_bound; lia); lia).
  unfold uint16.
  pose proof (Z.mod_pos_bound sum (2 ^ 8) ltac:(lia)).
  pose proof (Z.div_mod sum (2 ^ 8) ltac:(lia)).
  pose proof (Z.mod_le (sum `mod` 2 ^ 8 + sum `div` 2 ^ 8) (2 ^ 16) ltac:(lia) ltac:(lia)).
  lia.
Defined.

Definition getChecksum (ProtectedID dataLen : Z) : M Z :=
  let sum := uint16 ProtectedID in
  (* test FrameID bits for classicChecksum *)
  let sum := if 0x3C <=? Z.land sum 0x3F then 0x00 else sum in
  (* sum up all bytes (including carryover to the high byte) *)
  sum ← sum_bytes (Z.to_nat dataLen) sum;
  (* add high byte (carry over) to the low byte *)
  let sum := fold_carry sum in
  (* inverting result *)
  mret (uint8 (Z.lnot sum)).

(** ** LinSession: starting a frame *)

Definition setupSerial : M unit :=
  b ← gets baud; rx ← gets rxPin; tx ← gets txPin;
  (* start UART *)
  (if (rx <? 0) && (tx <? 0)
   then begin b None               (* no custom pins are defined *)
   else begin b (Some (rx, tx)));;
  delay 20.

(** Send a Break for introduction of a Frame *)
Definition writeBreak : M Z :=
  flush;;
  (* configure to half baudrate *)
  b ← gets baud;
  updateBaudRate (Z.shiftr b 1);;
  (* write 0x00, including Stop-Bit *)
  ret ← write (uint8 0x00);
  (* ensure this is send *)
  flush;;
  (* restore normal speed *)
  b ← gets baud;
  updateBaudRate b;;
  mret ret.

(** Introduce Frame (Start UART, Break, Sync, PID) *)
Definition startTransmission (ProtectedID : Z) : M unit :=
  setupSerial;;
  writeBreak;;                  (* initiate Frame with a Break *)
  write 0x55;;                  (* Sync *)
  write ProtectedID;;           (* PID *)
  mret tt.

(** ** ReceiveParser: listenBus *)

(** The [if] cascade of the cases -4 .. -1 of the [switch]: what becomes of
    [bytes_received] and [ProtectedID] on the byte [buffer]. *)
Definition seek_header (buffer bytes_received ProtectedID : Z) : Z * Z :=
  if buffer =? 0x00 then
    (* break *)
    (-3, ProtectedID)
  else if (buffer =? 0x55) && (bytes_received =? -3) then
    (* sync *)
    (-2, ProtectedID)
  else if negb (buffer =? 0x00) && (bytes_received =? -3) then
    (-4, ProtectedID)
  else if bytes_received =? -2 then
    (* PID *)
    (0, buffer)
  else
    (-4, ProtectedID).

(** One turn of [while (HardwareSerial::available())] in [listenBus]; the
    locals of the loop are [(bytes_received, ProtectedID)]. *)
Definition listen_body (l : Z * Z) : M (ctl (Z * Z)) :=
  let '(bytes_received, ProtectedID) := l in
  if 8 + 1 <=? bytes_received then
    (* receive max 9 Bytes: 8 Data + 1 Chksum *)
    mret (Break l)
  else
    l' ← match bytes_received with
         | -4 | -3 | -2 | -1 =>
             (* discard Break and Sync, detect PID *)
             r ← read;
             let buffer := uint8 r in
             mret (seek_header buffer bytes_received ProtectedID)
         | _ =>
             (* Receive and save only Data Byte (send by slave) *)
             r ← read;
             LinMessage_set bytes_received (uint8 r);;
             mret (bytes_received + 1, ProtectedID)
         end;
    a ← available;
    (if negb a then delay 2 else mret tt);;
    mret (Continue l').

(** The block under [#ifdef LINSIMULATION]: a simulated frame after a
    timeout.  Locals are [(timedOut, bytes_received, ProtectedID)]. *)
Definition simulated_frame (l : bool * Z * Z) : M (bool * Z * Z) :=
  let '(timedOut, bytes_received, ProtectedID) := l in
  if timedOut then
    let buf := [0xAB; 0x84; 0x1E; 0xF4; 0x2E; 0x84; 0x7A; 0x55; 0x00; 0x00; 0x00; 0x00] in
    let Id := 0x22 in
    (* memcpy(LinMessage, buf, 12) *)
    modify (λ o, set_LinMessage (buf ++ drop 12 (LinMessage o)) o);;
    modify (set_LinMessageID Id);;
    modify (set_LinMessageSize 9);;
    let bytes_received := 9 in
    let ProtectedID := Id in
    c ← getChecksum Id (uint8 (bytes_received - 1));
    LinMessage_set 8 c;;
    mret (false, bytes_received, ProtectedID)
  else mret l.

(** Lines 135-148: checksum verification and what is reported to the caller. *)
Definition listen_report (bytes_received ProtectedID : Z) : M bool :=
  if 0 <? bytes_received then
    (* verify Checksum *)
    Checksum ← LinMessage_get (bytes_received - 1);
    c ← getChecksum ProtectedID (uint8 (bytes_received - 1));
    let ChecksumValid := 0xFF =? uint8 (Checksum + Z.lnot c) in
    modify (set_LinMessageSize (uint8 bytes_received));;
    modify (set_LinMessageID (Z.land ProtectedID 0x3F));;
    mret ChecksumValid
  else
    modify (set_LinMessageSize 0);;
    modify (set_LinMessageID (Z.land ProtectedID 0x3F));;
    mret false.

(** The wait for the first byte,
    [while (!HardwareSerial::available() && !timedOut) timedOut = (timeoutAt < millis());]
    the local of the loop is [timedOut]. *)
Definition wait_cond (timedOut : bool) : M bool :=
  a ← available; mret (negb a && negb timedOut).

Definition wait_body (timeoutAt : Z) (timedOut : bool) : M (ctl bool) :=
  now ← millis; mret (Continue (timeoutAt <? now)).

Definition wait_for_data (fuel : nat) (timeoutAt : Z) : M bool :=
  while_ fuel wait_cond (wait_body timeoutAt) false.

(** The receive loop, from the state [-4] with no identifier captured. *)
Definition receive (fuel : nat) : M (Z * Z) :=
  while_ fuel (λ _, available) listen_body (-4, 0x00).

(** erase data in buffer, in case a 9th or 10th Byte was received *)
Definition drain (fuel : nat) : M unit :=
  while_ fuel (λ _, available) (λ _, read;; mret (Continue tt)) tt.

(** [listenBus] up to the end of the receive loop; it hands on the locals
    [(timedOut, bytes_received, ProtectedID)]. *)
Definition listen_collect (fuel : nat) : M (bool * Z * Z) :=
  let timeout := 500 in (* ms *)
  now ← millis;
  let timeoutAt := ulong (now + timeout) in
  flush;;
  (* wait for available data *)
  timedOut ← wait_for_data fuel timeoutAt;
  (* Break, Sync and ProtectedID will be received --> discard them *)
  '(bytes_received, ProtectedID) ← receive fuel;
  mret (timedOut, bytes_received, ProtectedID).

(** [LINSIMULATION] says whether the macro of that name is defined; the
    repository never defines it. *)
Definition listenBus (LINSIMULATION : bool) (fuel : nat) : M bool :=
  l ← listen_collect fuel;
  '(timedOut, bytes_received, ProtectedID) ←
    (if LINSIMULATION then simulated_frame l else mret l);
  drain fuel;;
  ChecksumValid ← listen_report bytes_received ProtectedID;
  mret ChecksumValid.

(** reads data from a lin device by requesting a specific FrameID *)
Definition readFrame (LINSIMULATION : bool) (fuel : nat) (FrameID : Z) : M bool :=
  let ProtectedID := getProtectedID FrameID in
  startTransmission ProtectedID;;
  flush;;
  ChecksumValid ← listenBus LINSIMULATION fuel;
  end_;;
  delay 20;;
  mret ChecksumValid.

(** ** LinSession: sending a frame *)

(** One turn of the loop that reads back DATA + CHKSUM in [writeFrame]; the
    locals of the loop are [(moreData, bytes_received)]. *)
Definition echo_body (l : bool * Z) : M (ctl (bool * Z)) :=
  let '(moreData, bytes_received) := l in
  if 8 + 1 + 4 <=? bytes_received then
    mret (Break (true, bytes_received))
  else
    (* Receive Byte from Bus (Slave) *)
    r ← read;
    LinMessage_set bytes_received (uint8 r);;
    mret (Continue (moreData, bytes_received + 1)).

(** The echo check of [writeFrame], from "Read Break and discard" to the
    end.  Its locals are returned for inspection:
    [(RX_Sync, RX_ProtectedID, moreData, Checksum_received, ChkSumCalc)]. *)
Definition echo_check (fuel : nat) : M (Z * Z * bool * Z * Z) :=
  (* Read Break and discard *)
  a ← available;
  (if a : bool then read;; mret tt else mret tt);;
  (* Read Sync *)
  a ← available;
  RX_Sync ← (if a : bool then r ← read; mret (uint8 r) else mret 0x00);
  (* Read PID *)
  a ← available;
  RX_ProtectedID ← (if a : bool then r ← read; mret (uint8 r) else mret 0x00);
  (* read DATA + CHKSUM *)
  '(moreData, bytes_received) ← while_ fuel (λ _, available) echo_body (false, 0);
  Checksum_received ← LinMessage_get (bytes_received - 1);
  let bytes_received := bytes_received - 1 in
  (* erase data in buffer, in case a 9th or 10th Byte was received *)
  flush;;
  end_;;
  (* use received PID for verification *)
  ChkSumCalc ← getChecksum RX_ProtectedID (uint8 bytes_received);
  mret (RX_Sync, RX_ProtectedID, moreData, Checksum_received, ChkSumCalc).

(** write a complete LIN2.0 frame without request of data to the lin-bus.
    [FrameID] and [dataLen] are the [uint8_t] values the function receives,
    0 .. 255.  For [dataLen] above 13 the first read of [getChecksum] is
    outside the array and the run stops there; [Target.writeFrame] follows
    such a call to its end. *)
Definition writeFrame (fuel : nat) (FrameID dataLen : Z) : M (Z * Z * bool * Z * Z) :=
  let ProtectedID := getProtectedID FrameID in
  cksum ← getChecksum ProtectedID dataLen;
  startTransmission ProtectedID;;
  for_ (Z.to_nat dataLen) 0 (λ i, b ← LinMessage_get i; write b;; mret tt);;
  write cksum;;
  (* wait for available data *)
  delay 10;;
  modify (set_verboseMode 1);;
  echo_check fuel.

(** send Frame (Break, Synk, PID, Data, Classic-Checksum) to the Bus; the
    arguments and the reads outside the array are as for [writeFrame]. *)
Definition writeFrameClassic (FrameID dataLen : Z) : M unit :=
  let ProtectedID := getProtectedID FrameID in
  cksum ← getChecksum 0x00 dataLen;
  startTransmission ProtectedID;;
  for_ (Z.to_nat dataLen) 0 (λ i, b ← LinMessage_get i; write b;; mret tt);;
  write cksum;;
  flush;;
  end_.

(** ** The sending functions as the target runs them *)

(** The code checks no index that it reads.  Where [LinMessage[i]] lies
    outside the array the functions above stop with [OutOfBounds i]; the
    compiled code reads the byte that lies [i] cells from the start of the
    array and carries on.  Here that byte is [beyond o i], for the object
    [o] at the time of the read; nothing is assumed about it, it may be any
    function of the object and the index.  The indices the code writes to
    are guarded by it, so [LinMessage_set] and [echo_body] are as above.
    The arguments of type [uint8_t] are converted at the call. *)
Module Target.
Definition LinMessage_get (beyond : Lin_Interface → Z → Z) (i : Z) : M Z :=
  if (0 <=? i) && (i <? LinMessage_cells)
  then m ← gets LinMessage; mret (default 0 (m !! Z.to_nat i))
  else gets (λ o, uint8 (beyond o i)).

(** [while (dataLen-- > 0) sum += LinMessage[dataLen];] on a [uint16_t] sum. *)
Fixpoint sum_bytes (beyond : Lin_Interface → Z → Z) (dataLen : nat) (sum : Z) : M Z :=
  match dataLen with
  | O => mret sum
  | S dataLen' =>
      b ← LinMessage_get beyond (Z.of_nat dataLen');
      sum_bytes beyond dataLen' (uint16 (sum + b))
  end.

Definition getChecksum (beyond : Lin_Interface → Z → Z) (ProtectedID dataLen : Z) : M Z :=
  let sum := uint16 ProtectedID in
  (* test FrameID bits for classicChecksum *)
  let sum := if 0x3C <=? Z.land sum 0x3F then 0x00 else sum in
  (* sum up all bytes (including carryover to the high byte) *)
  sum ← sum_bytes beyond (Z.to_nat dataLen) sum;
  (* add high byte (carry over) to the low byte *)
  let sum := fold_carry sum in
  (* inverting result *)
  mret (uint8 (Z.lnot sum)).

(** The echo check of [writeFrame], from "Read Break and discard" to the
    end, with its locals
    [(RX_Sync, RX_ProtectedID, moreData, Checksum_received, ChkSumCalc)]. *)
Definition echo_check (beyond : Lin_Interface → Z → Z) (fuel : nat) : M (Z * Z * bool * Z * Z) :=
  (* Read Break and discard *)
  a ← available;
  (if a : bool then read;; mret tt else mret tt);;
  (* Read Sync *)
  a ← available;
  RX_Sync ← (if a : bool then r ← read; mret (uint8 r) else mret 0x00);
  (* Read PID *)
  a ← available;
  RX_ProtectedID ← (if a : bool then r ← read; mret (uint8 r) else mret 0x00);
  (* read DATA + CHKSUM *)
  '(moreData, bytes_received) ← while_ fuel (λ _, available) echo_body (false, 0);
  Checksum_received ← LinMessage_get beyond (bytes_received - 1);
  let bytes_received := bytes_received - 1 in
  (* erase data in buffer, in case a 9th or 10th Byte was received *)
  flush;;
  end_;;
  (* use received PID for verification *)
  ChkSumCalc ← getChecksum beyond RX_ProtectedID (uint8 bytes_received);
  mret (RX_Sync, RX_ProtectedID, moreData, Checksum_received, ChkSumCalc).

(** write a complete LIN2.0 frame without request of data to the lin-bus *)
Definition writeFrame (beyond : Lin_Interface → Z → Z) (fuel : nat) (FrameID dataLen : Z)
  : M (Z * Z * bool * Z * Z) :=
  let FrameID := uint8 FrameID in
  let dataLen := uint8 dataLen in
  let ProtectedID := getProtectedID FrameID in
  cksum ← getChecksum beyond ProtectedID dataLen;
  startTransmission ProtectedID;;
  for_ (Z.to_nat dataLen) 0 (λ i, b ← LinMessage_get beyond i; write b;; mret tt);;
  write cksum;;
  (* wait for available data *)
  delay 10;;
  modify (set_verboseMode 1);;
  echo_check beyond fuel.

(** send Frame (Break, Synk, PID, Data, Classic-Checksum) to the Bus *)
Definition writeFrameClassic (beyond : Lin_Interface → Z → Z) (FrameID dataLen : Z) : M unit :=
  let FrameID := uint8 FrameID in
  let dataLen := uint8 dataLen in
  let ProtectedID := getProtectedID FrameID in
  cksum ← getChecksum beyond 0x00 dataLen;
  startTransmission ProtectedID;;
  for_ (Z.to_nat dataLen) 0 (λ i, b ← LinMessage_get beyond i; write b;; mret tt);;
  write cksum;;
  flush;;
  end_.
End Target.

(** ** Definitions used to state the properties *)

(** The checksum as the spec words it: sum the seed and all data bytes as
    16-bit values, fold the high byte into the low byte until no carry
    remains, return the complement of the low byte. *)
Definition checksum (seed : Z) (dataBytes : list Z) : Z :=
  uint8 (Z.lnot (fold_carry (uint16 (seed + foldr Z.add 0 dataBytes)))).

(** A transport on which nothing has arrived and nothing will. *)
Definition silent (t : Z) : HardwareSerial :=
  {| clock := t; rx_fifo := []; wire := []; calls := [] |}.

(** A transport on which the bytes [bs] have been received. *)
Definition received (bs : list Z) : HardwareSerial :=
  {| clock := 0; rx_fifo := bs; wire := []; calls := [] |}.

(** An object whose buffer holds [dataBytes] followed by [checksumByte]. *)
Definition holding (dataBytes : list Z) (checksumByte : Z) : Lin_Interface :=
  set_LinMessage (take 13 (dataBytes ++ checksumByte :: replicate 13 0))
                 (new_Lin_Interface (silent 0)).

(** [verify] of the spec.  The source has no function of that name: it is
    the test made by [listenBus] once [dataBytes] and [checksumByte] are in
    the buffer. *)
Definition verify (ProtectedID : Z) (dataBytes : list Z) (checksumByte : Z) : outcome bool :=
  fst (listen_report (Z.of_nat (length dataBytes) + 1) ProtectedID
                     (holding dataBytes checksumByte)).

(** The object [o] with [dataBytes] written to the front of its buffer. *)
Definition with_data (dataBytes : list Z) (o : Lin_Interface) : Lin_Interface :=
  set_LinMessage (dataBytes ++ drop (length dataBytes) (LinMessage o)) o.

Definition payload : list Z := [0xAB; 0x84; 0x1E; 0xF4; 0x2E; 0x84; 0x7A; 0x55].

(** Whether replacing byte [i] of the payload by [v] is noticed (or changes
    nothing). *)
Definition mutation_detected (i : nat) (v : Z) : bool :=
  bool_decide (payload !! i = Some v)
  || match verify 0x22 (<[i:=v]> payload) 0x18 with
     | Ok false => true
     | _ => false
     end.

(** The frame 0x22 of the simulation as it arrives from the bus: break,
    sync, protected identifier, payload, checksum. *)
Definition frame_0x22 : list Z := [0x00; 0x55; 0xE2] ++ payload ++ [0x57].

(** [m] keeps the invariant [I] of the object, whether it ends or faults. *)
Definition keeps (I : Lin_Interface → Prop) {A} (m : M A) : Prop :=
  ∀ o, I o → I (snd (m o)).

(** Every run of [m] either ends with a result in [Q] or stops on a fault
    in [P]. *)
Definition post {A} (m : M A) (Q : A → Prop) (P : fault → Prop) : Prop :=
  ∀ o, match fst (m o) with Ok a => Q a | Fault e => P e end.

(** [m'] does what [m] does, on every run of [m] that ends without a
    fault. *)
Definition agrees {A} (m m' : M A) : Prop :=
  ∀ o a o', m o = (Ok a, o') → m' o = (Ok a, o').

(** Every run of [m] ends with a result. *)
Definition returns {A} (m : M A) : Prop :=
  ∀ o, ∃ a o', m o = (Ok a, o').

(** ** Definitions used to state further properties *)

Definition is_byte (b : Z) : Prop := 0 ≤ b < 256.

(** The seed as [getChecksum] keeps it: 0 for the identifiers 0x3C .. 0x3F. *)
Definition kept_seed (ProtectedID : Z) : Z :=
  if 0x3C <=? Z.land ProtectedID 0x3F then 0 else ProtectedID.

(** Whether [getProtectedID] gives the same on [x] and on its low six bits. *)
Definition high_bits_ignored (x : Z) : bool :=
  getProtectedID x =? getProtectedID (Z.land x 0x3F).

(** Whether the protected identifier of [f] with bit [k] flipped is the
    protected identifier of no frame. *)
Definition flip_detected (f k : Z) : bool :=
  all_in_range (λ g, negb (Z.lxor (getProtectedID f) (2 ^ k) =? getProtectedID g)) 0 64.

(** The transport [h] after the further calls [cs]. *)
Definition logs (cs : list call) (h : HardwareSerial) : HardwareSerial :=
  {| clock := clock h; rx_fifo := rx_fifo h; wire := wire h; calls := calls h ++ cs |}.

(** The bytes written to the bus among the calls [cs]. *)
Definition bus_bytes (cs : list call) : list Z :=
  omap (λ c, match c with Write b => Some b | _ => None end) cs.

(** The calls [startTransmission] makes on the object [o]. *)
Definition header_calls (o : Lin_Interface) (ProtectedID : Z) : list call :=
  [Begin (baud o) (if (rxPin o <? 0) && (txPin o <? 0) then None else Some (rxPin o, txPin o));
   Flush; UpdateBaudRate (Z.shiftr (baud o) 1); Write 0x00; Flush; UpdateBaudRate (baud o);
   Write 0x55; Write ProtectedID].

(** Whether the low six bits of [getProtectedID x] are those of [x]. *)
Definition low_bits_kept (x : Z) : bool :=
  Z.land (getProtectedID x) 0x3F =? Z.land x 0x3F.

(** The transport changes that write no byte to the bus. *)
Definition silent_change (f : HardwareSerial → HardwareSerial) : Prop :=
  ∀ h, bus_bytes (calls (f h)) = bus_bytes (calls h).

(** The bytes written so far are [bs], and the configuration fields have
    the given values. *)
Definition sent_and_configured (bs : list Z) (v b r t : Z) (o : Lin_Interface) : Prop :=
  bus_bytes (calls (serial o)) = bs
  ∧ verboseMode o = v ∧ baud o = b ∧ rxPin o = r ∧ txPin o = t.

(** The buffer [l] after the bytes [data] were stored one by one from cell
    [n] on. *)
Fixpoint stored (n : nat) (data : list Z) (l : list Z) : list Z :=
  match data with
  | [] => l
  | b :: data' => stored (S n) data' (<[n:=b]> l)
  end.

(** A byte other than 0x00. *)
Definition is_noise (b : Z) : Prop := is_byte b ∧ b ≠ 0x00.

(** Whether the protected identifier of [x] is not 0x00. *)
Definition pid_not_zero (x : Z) : bool := negb (getProtectedID x =? 0x00).

(** The receive loop of [listenBus] from the locals [l]. *)
Definition receive_from (fuel : nat) (l : Z * Z) : M (Z * Z) :=
  while_ fuel (λ _, available) listen_body l.

(** The transport holds the bytes [bs] in its receive queue, nothing more
    is on the wire, and the calls made so far are [cs]. *)
Definition queue (bs : list Z) (cs : list call) (h : HardwareSerial) : Prop :=
  rx_fifo h = bs ∧ wire h = [] ∧ calls h = cs.

(** The transport [h] with its receive queue read to the end. *)
Definition cleared (h : HardwareSerial) : HardwareSerial :=
  {| clock := clock h; rx_fifo := []; wire := wire h; calls := calls h |}.

(** * Properties *)

Lemma all_in_range_spec P lo n x :
  all_in_range P lo n = true → lo ≤ x < lo + Z.of_nat n → P x = true.
Proof.
  unfold all_in_range. rewrite forallb_forall. intros H Hx.
  apply H, list_elem_of_In, elem_of_seqZ. lia.
Qed.

(** C1: for every FrameID in [0,63] the low six bits of getProtectedID are
    the FrameID, bit 6 is p0 = bit0 xor bit1 xor bit2 xor bit4 and bit 7 is
    p1 = not (bit1 xor bit3 xor bit4 xor bit5); the result is a byte. *)
Theorem getProtectedID_parity (FrameID : Z) :
  0 ≤ FrameID ≤ 63 →
  let r := getProtectedID FrameID in
  Z.land r 0x3F = FrameID
  ∧ Z.testbit r 6 = parity_p0 FrameID
  ∧ Z.testbit r 7 = parity_p1 FrameID
  ∧ 0 ≤ r < 256.
Proof.
  intros H.
  assert (Hall : all_in_range protectedID_ok 0 64 = true) by (vm_compute; reflexivity).
  pose proof (all_in_range_spec _ _ _ FrameID Hall ltac:(lia)) as Hok.
  unfold protectedID_ok in Hok.
  repeat (apply andb_prop in Hok; destruct Hok as [Hok ?]).
  cbv zeta. repeat split.
  - by apply Z.eqb_eq.
  - by apply eqb_prop.
  - by apply eqb_prop.
  - by apply Z.leb_le.
  - by apply Z.ltb_lt.
Qed.

Lemma getProtectedID_parity_witness :
  0 ≤ 0x22 ≤ 63
  ∧ Z.land (getProtectedID 0x22) 0x3F = 0x22
  ∧ Z.testbit (getProtectedID 0x22) 6 = parity_p0 0x22
  ∧ Z.testbit (getProtectedID 0x22) 7 = parity_p1 0x22
  ∧ 0 ≤ getProtectedID 0x22 < 256.
Proof.
  split; [lia | apply (getProtectedID_parity 0x22); lia].
Defined.

(** ** Running the monad *)

Lemma run_bind {A B} (m : M A) (f : A → M B) o a o' :
  m o = (Ok a, o') → (m ≫= f) o = f a o'.
Proof. intros H. unfold mbind, M_bind. by rewrite H. Qed.

(** Unfold the monad and the transport operations. *)
Ltac unfold_M :=
  repeat progress
    (unfold mbind, M_bind, mret, M_ret, flush, updateBaudRate, write, begin, end_, delay,
       millis, available, read, on_serial, modify, gets, raise; cbn).

(** ** writeBreak *)

(** C8: every call to writeBreak makes exactly these calls on the
    transport, in this order: flush, set the baud rate to half the
    configured one, write the byte 0x00, flush, set the configured baud rate
    again; nothing else about the object or the transport changes. *)
Theorem writeBreak_calls (o : Lin_Interface) :
  writeBreak o =
    (Ok 1,
     set_serial
       {| clock := clock (serial o); rx_fifo := rx_fifo (serial o); wire := wire (serial o);
          calls := calls (serial o) ++
                   [Flush; UpdateBaudRate (baud o `div` 2); Write 0x00; Flush;
                    UpdateBaudRate (baud o)] |} o).
Proof.
  unfold writeBreak. unfold_M.
  rewrite Z.shiftr_div_pow2 by lia. change (2 ^ 1) with 2.
  unfold set_serial, log. cbn.
  by rewrite <- !(assoc_L (++)).
Qed.

(** ** The receive state machine *)

Lemma uint8_small b : 0 ≤ b < 256 → uint8 b = b.
Proof. intros. unfold uint8. apply Z.mod_small. lia. Qed.

(** C5, as amended: in the state SeekIdentifier ([bytes_received = -2]) the
    next byte consumed, when it is not 0x00, is captured as ProtectedID and
    the state becomes CollectingData(0); a byte 0x00 is taken as a new break
    and the state becomes SeekSync ([-3]) with ProtectedID unchanged. *)
Theorem seek_identifier_next_byte (o : Lin_Interface) (b : Z) (rest : list Z) (ProtectedID : Z) :
  rx_fifo (serial o) = b :: rest →
  0 ≤ b < 256 →
  fst (listen_body (-2, ProtectedID) o) =
    Ok (Continue (if b =? 0x00 then (-3, ProtectedID) else (0, b))).
Proof.
  intros Hrx Hb. unfold listen_body. unfold_M.
  change (8 + 1 <=? -2) with false. cbv beta iota.
  rewrite Hrx. cbn. rewrite uint8_small by done.
  assert (Hs : seek_header b (-2) ProtectedID = if b =? 0 then (-3, ProtectedID) else (0, b)).
  { unfold seek_header. destruct (b =? 0); [done|].
    cbn. by rewrite andb_false_r. }
  rewrite Hs.
  destruct rest; cbn; [|done].
  unfold elapse. by destruct (arrive 2 (wire (serial o))).
Qed.

Lemma seek_identifier_next_byte_witness :
  fst (listen_body (-2, 0x00) (new_Lin_Interface (received [0xE2; 0x01]))) =
    Ok (Continue (0, 0xE2)).
Proof.
  apply (seek_identifier_next_byte _ 0xE2 [0x01] 0x00); [reflexivity | lia].
Defined.

(** C5, as stated, fails on the byte 0x00: the state after it is SeekSync,
    not CollectingData(0). *)
Lemma seek_identifier_zero_is_break :
  fst (listen_body (-2, 0x00) (new_Lin_Interface (received [0x00; 0x55; 0xE2]))) =
    Ok (Continue (-3, 0x00))
  ∧ fst (listen_body (-2, 0x00) (new_Lin_Interface (received [0x00; 0x55; 0xE2]))) ≠
    Ok (Continue (0, 0x00)).
Proof. split; [reflexivity | discriminate]. Qed.

(** The same on a whole reception: after break and sync, the bytes
    0x00 0x55 0xE2 start the header again and 0xE2 is the identifier. *)
Example receive_restarts_on_zero :
  fst (receive 20 (new_Lin_Interface (received [0x00; 0x55; 0x00; 0x55; 0xE2; 0x01; 0x02]))) =
    Ok (2, 0xE2).
Proof. reflexivity. Qed.

(** ** The echo check of writeFrame *)

(** C9 fails when no data byte is echoed: with nothing received at all,
    writeFrame reads [LinMessage[-1]] for the echoed checksum; the checksum
    recomputation that follows is called with [(uint8_t)(-1) = 255] bytes
    and starts reading at index 254. *)
Theorem writeFrame_no_echo_reads_outside (fuel : nat) :
  fst (writeFrame (S fuel) 0x22 8 (new_Lin_Interface (silent 0))) = Fault (OutOfBounds (-1))
  ∧ fst (getChecksum 0x00 (uint8 (0 - 1)) (new_Lin_Interface (silent 0))) =
      Fault (OutOfBounds 254).
Proof. split; reflexivity. Qed.

(** ** The checksum on the frame of the simulation *)

Lemma mutation_detected_all (i : nat) (v : Z) :
  (i < 8)%nat → 0 ≤ v < 256 → mutation_detected i v = true.
Proof.
  intros Hi Hv.
  assert (Hall : forallb (λ i, all_in_range (mutation_detected i) 0 256) (seq 0 8) = true)
    by (vm_compute; reflexivity).
  rewrite forallb_forall in Hall.
  apply (all_in_range_spec _ 0 256); [|lia].
  apply Hall, in_seq. lia.
Qed.

(** C3: for identifier 0x22 and the payload AB 84 1E F4 2E 84 7A 55 the
    checksum is 0x18, the validity test of listenBus accepts the payload
    with checksum 0x18, and rejects it once any single payload byte is
    replaced by a different byte. *)
Theorem checksum_round_trip :
  fst (getChecksum 0x22 8 (holding payload 0x18)) = Ok 0x18
  ∧ verify 0x22 payload 0x18 = Ok true
  ∧ ∀ (i : nat) (v : Z), (i < 8)%nat → 0 ≤ v < 256 → payload !! i ≠ Some v →
      verify 0x22 (<[i:=v]> payload) 0x18 = Ok false.
Proof.
  split; [reflexivity|]. split; [reflexivity|].
  intros i v Hi Hv Hne.
  pose proof (mutation_detected_all i v Hi Hv) as H.
  unfold mutation_detected in H.
  apply orb_true_iff in H as [H|H].
  - by apply bool_decide_eq_true in H.
  - by destruct (verify 0x22 (<[i:=v]> payload) 0x18) as [[]|].
Qed.

Lemma checksum_round_trip_witness :
  verify 0x22 (<[0%nat:=0x00]> payload) 0x18 = Ok false.
Proof.
  apply (proj2 (proj2 checksum_round_trip) 0%nat 0x00); [lia | lia | discriminate].
Defined.

(** ** The checksum in general *)

(** The folding loop ends with no carry left: its result is a byte. *)
Lemma fold_carry_byte (sum : Z) : 0 ≤ sum → 0 ≤ fold_carry sum < 256.
Proof.
  funelim (fold_carry sum); intros Hs.
  - apply H. unfold uint16. apply Z.mod_pos_bound. lia.
  - pose proof n as Hn. rewrite Z.shiftr_div_pow2 in Hn by lia.
    pose proof (Z.div_pos sum (2 ^ 8) Hs ltac:(lia)).
    pose proof (Z.div_mod sum (2 ^ 8) ltac:(lia)).
    pose proof (Z.mod_pos_bound sum (2 ^ 8) ltac:(lia)). lia.
Qed.

Lemma LinMessage_get_run (o : Lin_Interface) (i : nat) :
  (i < 13)%nat →
  LinMessage_get (Z.of_nat i) o = (Ok (default 0 (LinMessage o !! i)), o).
Proof.
  intros Hi. unfold LinMessage_get, LinMessage_cells.
  replace ((0 <=? Z.of_nat i) && (Z.of_nat i <? 8 + 1 + 4)) with true
    by (symmetry; apply andb_true_iff; split; [apply Z.leb_le | apply Z.ltb_lt]; lia).
  unfold_M. by rewrite Nat2Z.id.
Qed.

Lemma LinMessage_get_run_Z (o : Lin_Interface) (i : Z) :
  0 ≤ i < 13 →
  LinMessage_get i o = (Ok (default 0 (LinMessage o !! Z.to_nat i)), o).
Proof.
  intros Hi. rewrite <- (Z2Nat.id i) at 1 by lia. apply LinMessage_get_run. lia.
Qed.

Lemma sum_snoc (l : list Z) (x : Z) : foldr Z.add 0 (l ++ [x]) = foldr Z.add 0 l + x.
Proof. induction l as [|y l IH]; cbn; lia. Qed.

Lemma sum_take_S (l : list Z) (n : nat) :
  foldr Z.add 0 (take (S n) l) = foldr Z.add 0 (take n l) + default 0 (l !! n).
Proof.
  destruct (l !! n) as [x|] eqn:Hl.
  - by rewrite (take_S_r _ _ _ Hl), sum_snoc.
  - apply lookup_ge_None in Hl. rewrite !take_ge by lia. cbn. lia.
Qed.

Lemma sum_permutation (l l' : list Z) :
  l ≡ₚ l' → foldr Z.add 0 l = foldr Z.add 0 l'.
Proof. induction 1; cbn; lia. Qed.

(** The summing loop reads the cells [dataLen - 1 .. 0] and adds them up
    modulo 2^16. *)
Lemma sum_bytes_run (o : Lin_Interface) (dataLen : nat) (sum : Z) :
  (dataLen ≤ 13)%nat → 0 ≤ sum < 2 ^ 16 →
  sum_bytes dataLen sum o =
    (Ok (uint16 (sum + foldr Z.add 0 (take dataLen (LinMessage o)))), o).
Proof.
  revert sum. induction dataLen as [|n IH]; intros sum Hn Hs.
  - cbn. unfold uint16. rewrite Z.add_0_r, Z.mod_small by done. done.
  - cbn [sum_bytes].
    rewrite (run_bind _ _ _ _ _ (LinMessage_get_run o n ltac:(lia))).
    rewrite IH by (unfold uint16; first [lia | apply Z.mod_pos_bound; lia]).
    rewrite sum_take_S. unfold uint16. do 2 f_equal.
    rewrite Zplus_mod_idemp_l. f_equal. lia.
Qed.

Lemma getChecksum_run (o : Lin_Interface) (seed dataLen : Z) :
  0 ≤ seed < 256 → 0 ≤ dataLen ≤ 13 →
  getChecksum seed dataLen o =
    (Ok (checksum (if 0x3C <=? Z.land seed 0x3F then 0 else seed)
                  (take (Z.to_nat dataLen) (LinMessage o))), o).
Proof.
  intros Hs Hn. unfold getChecksum.
  assert (Hu : uint16 seed = seed) by (unfold uint16; apply Z.mod_small; lia).
  rewrite Hu.
  erewrite run_bind; [reflexivity|].
  apply sum_bytes_run; [lia|].
  destruct (0x3C <=? Z.land seed 0x3F); lia.
Qed.

(** C2: getChecksum itself chooses the mode from the seed it is given: when
    [(seed & 0x3F) >= 0x3C] the seed contributes 0 to the sum (Classic),
    otherwise the seed byte is part of the sum (Enhanced).  So the checksum
    for protectedID(0x3B) has the identifier byte in the sum and the
    checksum for protectedID(0x3C) is the checksum of the data bytes alone. *)
Theorem getChecksum_mode (o : Lin_Interface) (seed dataLen : Z) :
  0 ≤ seed < 256 → 0 ≤ dataLen ≤ 13 →
  let dataBytes := take (Z.to_nat dataLen) (LinMessage o) in
  getChecksum seed dataLen o =
    (Ok (checksum (if 0x3C <=? Z.land seed 0x3F then 0 else seed) dataBytes), o)
  ∧ getChecksum (getProtectedID 0x3B) dataLen o =
      (Ok (checksum (getProtectedID 0x3B) dataBytes), o)
  ∧ getChecksum (getProtectedID 0x3C) dataLen o = (Ok (checksum 0 dataBytes), o).
Proof.
  intros Hs Hn dataBytes. split; [|split].
  - by apply getChecksum_run.
  - rewrite getChecksum_run by (vm_compute; done || (split; discriminate)). done.
  - rewrite getChecksum_run by (vm_compute; done || (split; discriminate)). done.
Qed.

Lemma getChecksum_mode_witness :
  getChecksum 0x3D 8 (holding payload 0x00) = (Ok (checksum 0 payload), holding payload 0x00).
Proof.
  apply (getChecksum_mode (holding payload 0x00) 0x3D 8); lia.
Defined.

Lemma take_with_data (dataBytes : list Z) (o : Lin_Interface) :
  take (length dataBytes) (LinMessage (with_data dataBytes o)) = dataBytes.
Proof. cbn. by rewrite take_app_length. Qed.

(** C4: for every seed byte and every list of at most 13 data bytes,
    getChecksum returns the same checksum on the list and on any
    permutation of it. *)
Theorem getChecksum_order_independent (o : Lin_Interface) (seed : Z) (dataBytes dataBytes' : list Z) :
  0 ≤ seed < 256 →
  (length dataBytes ≤ 13)%nat →
  dataBytes ≡ₚ dataBytes' →
  ∃ c : Z,
    fst (getChecksum seed (Z.of_nat (length dataBytes)) (with_data dataBytes o)) = Ok c
    ∧ fst (getChecksum seed (Z.of_nat (length dataBytes')) (with_data dataBytes' o)) = Ok c.
Proof.
  intros Hs Hlen Hperm.
  pose proof (Permutation_length Hperm) as Hl.
  eexists. rewrite !getChecksum_run by lia. rewrite !Nat2Z.id, !take_with_data. cbn.
  split; [reflexivity|].
  unfold checksum. by rewrite (sum_permutation _ _ Hperm).
Qed.

Lemma getChecksum_order_independent_witness :
  ∃ c : Z,
    fst (getChecksum 0x22 3 (with_data [1; 2; 3] (new_Lin_Interface (silent 0)))) = Ok c
    ∧ fst (getChecksum 0x22 3 (with_data [3; 1; 2] (new_Lin_Interface (silent 0)))) = Ok c.
Proof.
  apply (getChecksum_order_independent (new_Lin_Interface (silent 0)) 0x22 [1; 2; 3] [3; 1; 2]).
  - lia.
  - cbn. lia.
  - symmetry. apply (Permutation_cons_append [1; 2] 3).
Defined.

(** ** What listenBus reports *)

Lemma getChecksum_ok (o : Lin_Interface) (seed dataLen : Z) :
  0 ≤ dataLen ≤ 13 → ∃ c : Z, getChecksum seed dataLen o = (Ok c, o).
Proof.
  intros Hn. unfold getChecksum. eexists.
  erewrite run_bind; [reflexivity|].
  apply sum_bytes_run; [lia|].
  destruct (0x3C <=? _); [lia|]. unfold uint16. apply Z.mod_pos_bound. lia.
Qed.

Lemma available_run (o : Lin_Interface) :
  available o = (Ok (match rx_fifo (serial o) with [] => false | _ :: _ => true end), o).
Proof. reflexivity. Qed.

Lemma read_run (o : Lin_Interface) :
  read o = (Ok (match rx_fifo (serial o) with [] => -1 | b :: _ => b end),
            set_serial (pop (serial o)) o).
Proof. reflexivity. Qed.

Lemma millis_run (o : Lin_Interface) :
  millis o = (Ok (clock (elapse 1 (serial o))), set_serial (elapse 1 (serial o)) o).
Proof. reflexivity. Qed.

Lemma flush_run (o : Lin_Interface) :
  flush o = (Ok tt, set_serial (log Flush (serial o)) o).
Proof. reflexivity. Qed.

Lemma set_serial_same (o : Lin_Interface) : set_serial (serial o) o = o.
Proof. by destruct o. Qed.

Lemma set_serial_twice (h h' : HardwareSerial) (o : Lin_Interface) :
  set_serial h (set_serial h' o) = set_serial h o.
Proof. reflexivity. Qed.

(** The drain loop empties the receive queue and touches nothing else. *)
Lemma drain_run (fuel : nat) (o : Lin_Interface) :
  (length (rx_fifo (serial o)) < fuel)%nat →
  ∃ h : HardwareSerial, drain fuel o = (Ok tt, set_serial h o).
Proof.
  unfold drain. revert o. induction fuel as [|fuel IH]; intros o Hlen; [lia|].
  cbn [while_]. erewrite run_bind by apply available_run.
  destruct (rx_fifo (serial o)) as [|b rest] eqn:Hrx.
  - exists (serial o). by rewrite set_serial_same.
  - erewrite run_bind by (erewrite run_bind by apply read_run; reflexivity).
    destruct (IH (set_serial (pop (serial o)) o)) as [h Hh].
    { cbn. rewrite Hrx. cbn in *. lia. }
    exists h. by rewrite Hh.
Qed.

Lemma listen_report_run (o : Lin_Interface) (n ProtectedID : Z) :
  1 ≤ n ≤ 9 →
  ∃ v : bool,
    listen_report n ProtectedID o =
      (Ok v, set_LinMessageID (Z.land ProtectedID 0x3F) (set_LinMessageSize n o)).
Proof.
  intros Hn. unfold listen_report.
  replace (0 <? n) with true by (symmetry; apply Z.ltb_lt; lia).
  erewrite run_bind by (apply LinMessage_get_run_Z; lia).
  rewrite !uint8_small by lia.
  destruct (getChecksum_ok o ProtectedID (n - 1) ltac:(lia)) as [c Hc].
  erewrite run_bind by exact Hc.
  eexists. unfold_M. reflexivity.
Qed.

(** C6, as amended: when the reception completes with n bytes collected
    after the ProtectedID (1 <= n <= 9, the last one being the checksum),
    listenBus reports LinMessageSize = n, the payload bytes and the trailing
    checksum byte together, and LinMessageID = ProtectedID & 0x3F. *)
Theorem listenBus_reports (fuel : nat) (o o1 : Lin_Interface)
    (timedOut : bool) (n ProtectedID : Z) :
  listen_collect fuel o = (Ok (timedOut, n, ProtectedID), o1) →
  1 ≤ n ≤ 9 →
  (length (rx_fifo (serial o1)) < fuel)%nat →
  ∃ (v : bool) (o2 : Lin_Interface),
    listenBus false fuel o = (Ok v, o2)
    ∧ LinMessageSize o2 = n
    ∧ LinMessageID o2 = Z.land ProtectedID 0x3F.
Proof.
  intros Hc Hn Hfuel. unfold listenBus.
  erewrite run_bind by exact Hc.
  erewrite run_bind by reflexivity.
  destruct (drain_run fuel o1 Hfuel) as [h Hd].
  erewrite run_bind by exact Hd.
  destruct (listen_report_run (set_serial h o1) n ProtectedID Hn) as [v Hv].
  erewrite run_bind by exact Hv.
  by eexists _, _.
Qed.

Lemma listenBus_reports_witness :
  ∃ (v : bool) (o2 : Lin_Interface),
    listenBus false 40 (new_Lin_Interface (received frame_0x22)) = (Ok v, o2)
    ∧ LinMessageSize o2 = 9
    ∧ LinMessageID o2 = Z.land 0xE2 0x3F.
Proof.
  eapply (listenBus_reports 40 (new_Lin_Interface (received frame_0x22)) _ false 9 0xE2).
  - vm_compute. reflexivity.
  - lia.
  - vm_compute. lia.
Defined.

(** C6, as stated, fails: for the frame 0x22 with its eight payload bytes
    and its checksum, n = 9 bytes are collected and the reported
    LinMessageSize is 9, not n - 1 = 8. *)
Lemma listenBus_size_counts_checksum :
  fst (listen_collect 40 (new_Lin_Interface (received frame_0x22))) = Ok (false, 9, 0xE2)
  ∧ fst (listenBus false 40 (new_Lin_Interface (received frame_0x22))) = Ok true
  ∧ LinMessageSize (snd (listenBus false 40 (new_Lin_Interface (received frame_0x22)))) = 9
  ∧ LinMessageSize (snd (listenBus false 40 (new_Lin_Interface (received frame_0x22)))) ≠ 9 - 1.
Proof. repeat split; (vm_compute; congruence). Qed.

(** ** The wait for the first byte *)

Lemma fst_bind_fault {A B} (m : M A) (f : A → M B) o e :
  fst (m o) = Fault e → fst ((m ≫= f) o) = Fault e.
Proof.
  unfold mbind, M_bind. destruct (m o) as [[a|e'] o']; cbn; intros H; [discriminate | congruence].
Qed.

Lemma ulong_bound x : 0 ≤ ulong x < 2 ^ 32.
Proof. unfold ulong. apply Z.mod_pos_bound. lia. Qed.

(** With the deadline at the largest value of the clock, no reading of the
    clock is past it: as long as nothing arrives the wait goes on, whatever
    the fuel. *)
Lemma elapse_silent (d : Z) (h : HardwareSerial) :
  rx_fifo h = [] → wire h = [] →
  elapse d h = {| clock := ulong (clock h + d); rx_fifo := []; wire := []; calls := calls h |}.
Proof. intros Hrx Hw. unfold elapse. by rewrite Hw, Hrx. Qed.

Lemma wait_cond_run (timedOut : bool) (o : Lin_Interface) :
  rx_fifo (serial o) = [] → wait_cond timedOut o = (Ok (negb timedOut), o).
Proof. intros Hrx. unfold wait_cond. unfold_M. by rewrite Hrx. Qed.

Lemma wait_body_run (timeoutAt : Z) (timedOut : bool) (o : Lin_Interface) :
  wait_body timeoutAt timedOut o =
    (Ok (Continue (timeoutAt <? clock (elapse 1 (serial o)))),
     set_serial (elapse 1 (serial o)) o).
Proof. reflexivity. Qed.

Lemma wait_for_data_forever (fuel : nat) (o : Lin_Interface) :
  rx_fifo (serial o) = [] → wire (serial o) = [] →
  fst (wait_for_data fuel (2 ^ 32 - 1) o) = Fault OutOfFuel.
Proof.
  unfold wait_for_data. revert o. induction fuel as [|fuel IH]; intros o Hrx Hw; [reflexivity|].
  cbn [while_].
  erewrite run_bind by (by apply wait_cond_run). cbn [negb].
  erewrite run_bind by apply wait_body_run.
  rewrite (elapse_silent _ _ Hrx Hw). cbn [clock].
  replace (_ <? _) with false
    by (symmetry; apply Z.ltb_ge; pose proof (ulong_bound (clock (serial o) + 1)); lia).
  apply IH; done.
Qed.

Lemma listen_collect_forever (fuel : nat) (o : Lin_Interface) :
  rx_fifo (serial o) = [] → wire (serial o) = [] →
  ulong (ulong (clock (serial o) + 1) + 500) = 2 ^ 32 - 1 →
  fst (listen_collect fuel o) = Fault OutOfFuel.
Proof.
  intros Hrx Hw Hc. unfold listen_collect.
  erewrite run_bind by apply millis_run.
  erewrite run_bind by apply flush_run.
  apply fst_bind_fault.
  rewrite (elapse_silent _ _ Hrx Hw). cbn [clock]. rewrite Hc.
  by apply wait_for_data_forever.
Qed.

(** C7 fails at one reading of the clock: when [millis()] returns
    4294966795 at the start of listenBus, the deadline [timeoutAt] is
    4294967295, the largest [unsigned long]; [timeoutAt < millis()] is then
    never true, and with no byte arriving the wait never ends: whatever the
    fuel, the loop is still running.  The same happens to readFrame entered
    20 ms earlier. *)
Theorem listenBus_deadline_at_clock_maximum (fuel : nat) :
  fst (listenBus false fuel (new_Lin_Interface (silent (2 ^ 32 - 502)))) = Fault OutOfFuel
  ∧ fst (readFrame false fuel 0x22 (new_Lin_Interface (silent (2 ^ 32 - 522)))) =
      Fault OutOfFuel.
Proof.
  split.
  - unfold listenBus. apply fst_bind_fault.
    by apply listen_collect_forever.
  - unfold readFrame.
    erewrite run_bind by reflexivity.
    erewrite run_bind by reflexivity.
    apply fst_bind_fault. unfold listenBus. apply fst_bind_fault.
    by apply listen_collect_forever.
Qed.

(** Away from that reading of the clock the wait ends: the deadline is
    passed after at most 501 readings. *)
Lemma wait_loop_times_out (k fuel : nat) (timeoutAt : Z) (o : Lin_Interface) :
  rx_fifo (serial o) = [] → wire (serial o) = [] →
  (0 < k < fuel)%nat →
  timeoutAt < ulong (clock (serial o) + Z.of_nat k) →
  ∃ h : HardwareSerial,
    while_ fuel wait_cond (wait_body timeoutAt) false o = (Ok true, set_serial h o)
    ∧ rx_fifo h = [] ∧ wire h = [].
Proof.
  revert fuel o. induction k as [|k IH]; intros fuel o Hrx Hw Hk Ht; [lia|].
  destruct fuel as [|fuel]; [lia|].
  cbn [while_].
  erewrite run_bind by (by apply wait_cond_run). cbn [negb].
  erewrite run_bind by apply wait_body_run.
  rewrite (elapse_silent _ _ Hrx Hw). cbn [clock].
  destruct (timeoutAt <? ulong (clock (serial o) + 1)) eqn:Hnow.
  - destruct fuel as [|fuel]; [lia|]. cbn [while_].
    erewrite run_bind by (by apply wait_cond_run). cbn [negb].
    eexists. split; [reflexivity|done].
  - apply Z.ltb_ge in Hnow.
    destruct k as [|k]; [change (Z.of_nat 1) with 1 in Ht; lia|].
    edestruct (IH fuel) as (h & Hrun & Hrx' & Hw'); [| | | |
      eexists; split; [rewrite Hrun, set_serial_twice; reflexivity | done]]; cbn; try done; try lia.
    unfold ulong in *. rewrite Zplus_mod_idemp_l.
    replace (clock (serial o) + 1 + Z.of_nat (S k)) with (clock (serial o) + Z.of_nat (S (S k)))
      by lia.
    done.
Qed.

Lemma deadline_is_passed (now : Z) :
  0 ≤ now < 2 ^ 32 →
  ulong (now + 500) ≠ 2 ^ 32 - 1 →
  ∃ k : nat, (0 < k < 502)%nat ∧ ulong (now + 500) < ulong (now + Z.of_nat k).
Proof.
  unfold ulong. change (2 ^ 32) with 4294967296. intros Hn Hd.
  destruct (Z_lt_dec (now + 500) 4294967296) as [Hlt|Hge].
  - exists 501%nat. rewrite Z.mod_small in * by lia.
    rewrite Z.mod_small by lia. lia.
  - replace ((now + 500) `mod` 4294967296) with (now + 500 - 4294967296)
      by (apply (Z.mod_unique_pos _ _ 1); lia).
    destruct (Z_lt_dec (now + 1) 4294967296).
    + exists 1%nat. rewrite Z.mod_small by lia. lia.
    + exists 501%nat.
      replace ((now + Z.of_nat 501) `mod` 4294967296) with (now + 501 - 4294967296)
        by (apply (Z.mod_unique_pos _ _ 1); lia).
      lia.
Qed.

Lemma receive_idle (fuel : nat) (o : Lin_Interface) :
  rx_fifo (serial o) = [] → (0 < fuel)%nat → receive fuel o = (Ok (-4, 0x00), o).
Proof.
  intros Hrx Hfuel. unfold receive. destruct fuel as [|fuel]; [lia|]. cbn [while_].
  erewrite run_bind by apply available_run. by rewrite Hrx.
Qed.

Lemma listen_collect_times_out (fuel : nat) (o : Lin_Interface) :
  rx_fifo (serial o) = [] → wire (serial o) = [] →
  ulong (ulong (clock (serial o) + 1) + 500) ≠ 2 ^ 32 - 1 →
  (502 ≤ fuel)%nat →
  ∃ h : HardwareSerial,
    listen_collect fuel o = (Ok (true, -4, 0x00), set_serial h o) ∧ rx_fifo h = [].
Proof.
  intros Hrx Hw Hd Hfuel.
  destruct (deadline_is_passed _ (ulong_bound (clock (serial o) + 1)) Hd) as (k & Hk & Hlt).
  unfold listen_collect.
  erewrite run_bind by apply millis_run.
  erewrite run_bind by apply flush_run.
  rewrite (elapse_silent _ _ Hrx Hw). cbn [clock].
  lazymatch goal with
  | |- context [mbind _ (wait_for_data fuel ?T) ?o1] =>
      destruct (wait_loop_times_out k fuel T o1 eq_refl eq_refl ltac:(lia) Hlt)
        as (h & Hrun & Hrx' & Hw')
  end.
  unfold wait_for_data. erewrite run_bind by exact Hrun.
  erewrite run_bind by (apply receive_idle; [exact Hrx' | lia]).
  exists h. split; [reflexivity | done].
Qed.

(** C7 at every other reading of the clock: when nothing arrives, listenBus
    returns false and reports an empty frame. *)
Lemma listenBus_times_out (fuel : nat) (o : Lin_Interface) :
  rx_fifo (serial o) = [] → wire (serial o) = [] →
  ulong (ulong (clock (serial o) + 1) + 500) ≠ 2 ^ 32 - 1 →
  (502 ≤ fuel)%nat →
  ∃ o' : Lin_Interface,
    listenBus false fuel o = (Ok false, o')
    ∧ LinMessageSize o' = 0 ∧ LinMessageID o' = 0.
Proof.
  intros Hrx Hw Hd Hfuel.
  destruct (listen_collect_times_out fuel o Hrx Hw Hd Hfuel) as (h & Hrun & Hrx').
  unfold listenBus.
  erewrite run_bind by exact Hrun.
  erewrite run_bind by reflexivity.
  destruct (drain_run fuel (set_serial h o)) as [h' Hdrain].
  { cbn. rewrite Hrx'. cbn. lia. }
  erewrite run_bind by exact Hdrain.
  eexists. split; [reflexivity | done].
Qed.

Example listenBus_times_out_at_boot :
  ∃ o' : Lin_Interface,
    listenBus false 502 (new_Lin_Interface (silent 0)) = (Ok false, o')
    ∧ LinMessageSize o' = 0 ∧ LinMessageID o' = 0.
Proof. apply listenBus_times_out; [done | done | vm_compute; discriminate | lia]. Qed.

(** ** What writeFrame leaves of the object *)

Section Keeps.
(** An invariant of the object that does not look at the transport nor at
    the buffer. *)
Variable I : Lin_Interface → Prop.
Hypothesis I_serial : ∀ h o, I o → I (set_serial h o).
Hypothesis I_LinMessage : ∀ m o, I o → I (set_LinMessage m o).

Lemma keeps_ret {A} (a : A) : keeps I (mret a).
Proof. by intros o Ho. Qed.

Lemma keeps_raise {A} (e : fault) : keeps I (raise e : M A).
Proof. by intros o Ho. Qed.

Lemma keeps_gets {A} (f : Lin_Interface → A) : keeps I (gets f).
Proof. by intros o Ho. Qed.

Lemma keeps_bind {A B} (m : M A) (f : A → M B) :
  keeps I m → (∀ a, keeps I (f a)) → keeps I (m ≫= f).
Proof.
  intros Hm Hf o Ho. specialize (Hm o Ho).
  unfold mbind, M_bind. destruct (m o) as [[a|e] o']; cbn in *; [by apply Hf | done].
Qed.

Lemma keeps_on_serial (f : HardwareSerial → HardwareSerial) : keeps I (on_serial f).
Proof. intros o Ho. by apply I_serial. Qed.

Lemma keeps_available : keeps I available.
Proof. apply keeps_gets. Qed.

Lemma keeps_read : keeps I read.
Proof.
  unfold read. apply keeps_bind; [apply keeps_gets | intros r].
  apply keeps_bind; [apply keeps_on_serial | intros _; apply keeps_ret].
Qed.

Lemma keeps_LinMessage_get (i : Z) : keeps I (LinMessage_get i).
Proof.
  unfold LinMessage_get. destruct (_ && _); [|apply keeps_raise].
  apply keeps_bind; [apply keeps_gets | intros m; apply keeps_ret].
Qed.

Lemma keeps_LinMessage_set (i v : Z) : keeps I (LinMessage_set i v).
Proof.
  unfold LinMessage_set. destruct (_ && _); [|apply keeps_raise].
  intros o Ho. by apply I_LinMessage.
Qed.

Lemma keeps_while {L} (fuel : nat) (cond : L → M bool) (body : L → M (ctl L)) (l : L) :
  (∀ l, keeps I (cond l)) → (∀ l, keeps I (body l)) → keeps I (while_ fuel cond body l).
Proof.
  intros Hc Hb. revert l. induction fuel as [|fuel IH]; intros l; [apply keeps_raise|].
  cbn [while_]. apply keeps_bind; [apply Hc | intros [|]; [|apply keeps_ret]].
  apply keeps_bind; [apply Hb | intros [l'|l']; [apply IH | apply keeps_ret]].
Qed.

Lemma keeps_sum_bytes (dataLen : nat) (sum : Z) : keeps I (sum_bytes dataLen sum).
Proof.
  revert sum. induction dataLen as [|n IH]; intros sum; [apply keeps_ret|].
  cbn [sum_bytes]. apply keeps_bind; [apply keeps_LinMessage_get | intros b; apply IH].
Qed.

Lemma keeps_getChecksum (ProtectedID dataLen : Z) : keeps I (getChecksum ProtectedID dataLen).
Proof.
  unfold getChecksum. apply keeps_bind; [apply keeps_sum_bytes | intros s; apply keeps_ret].
Qed.

(** One step of a proof that a member function keeps [I]. *)
Ltac keeps_step :=
  first
    [ apply keeps_ret | apply keeps_raise | apply keeps_gets | apply keeps_on_serial
    | apply keeps_available | apply keeps_read | apply keeps_LinMessage_get
    | apply keeps_LinMessage_set | apply keeps_getChecksum
    | apply keeps_while; intros ?
    | apply keeps_bind; [|intros ?]
    | match goal with
      | |- keeps _ (if ?c then _ else _) => destruct c
      | |- keeps _ (let '(_, _) := ?p in _) => destruct p
      end ].

Lemma keeps_echo_body (l : bool * Z) : keeps I (echo_body l).
Proof. unfold echo_body. repeat keeps_step. Qed.

Lemma keeps_echo_check (fuel : nat) : keeps I (echo_check fuel).
Proof. unfold echo_check. repeat first [apply keeps_echo_body | keeps_step]. Qed.
End Keeps.

(** What writeFrame does before the echo check changes the transport only. *)
Lemma startTransmission_run (ProtectedID : Z) (o : Lin_Interface) :
  ∃ h : HardwareSerial, startTransmission ProtectedID o = (Ok tt, set_serial h o).
Proof.
  unfold startTransmission, setupSerial, writeBreak. unfold_M.
  destruct ((rxPin o <? 0) && (txPin o <? 0)); unfold_M; eexists; reflexivity.
Qed.

Lemma send_loop_run (n : nat) (i : Z) (o : Lin_Interface) :
  0 ≤ i → i + Z.of_nat n ≤ 13 →
  ∃ h : HardwareSerial,
    for_ n i (λ i, b ← LinMessage_get i; write b;; mret tt) o = (Ok tt, set_serial h o).
Proof.
  revert i o. induction n as [|n IH]; intros i o Hi Hn.
  - exists (serial o). by rewrite set_serial_same.
  - cbn [for_].
    erewrite run_bind.
    2:{ erewrite run_bind by (apply LinMessage_get_run_Z; lia).
        erewrite run_bind by reflexivity. reflexivity. }
    destruct (IH (i + 1) (set_serial (log (Write (default 0 (LinMessage o !! Z.to_nat i)))
                                          (serial o)) o)) as [h Hh]; [lia | lia |].
    exists h. by rewrite Hh.
Qed.

(** ** Every call of writeFrame *)

(** On the target no read of the buffer stops a function, and a read
    changes nothing. *)
Lemma target_get_run (beyond : Lin_Interface → Z → Z) (i : Z) (o : Lin_Interface) :
  ∃ b : Z, Target.LinMessage_get beyond i o = (Ok b, o).
Proof. unfold Target.LinMessage_get. destruct (_ && _); eexists; reflexivity. Qed.

Lemma target_sum_bytes_run (beyond : Lin_Interface → Z → Z) (n : nat) (sum : Z)
    (o : Lin_Interface) :
  ∃ s : Z, Target.sum_bytes beyond n sum o = (Ok s, o).
Proof.
  revert sum. induction n as [|n IH]; intros sum; [by eexists|].
  cbn [Target.sum_bytes]. destruct (target_get_run beyond (Z.of_nat n) o) as [b Hb].
  erewrite run_bind by exact Hb. apply IH.
Qed.

Lemma target_getChecksum_run (beyond : Lin_Interface → Z → Z) (ProtectedID dataLen : Z)
    (o : Lin_Interface) :
  ∃ c : Z, Target.getChecksum beyond ProtectedID dataLen o = (Ok c, o).
Proof.
  unfold Target.getChecksum. cbv zeta.
  match goal with
  | |- context [Target.sum_bytes beyond ?n ?s] =>
      destruct (target_sum_bytes_run beyond n s o) as [s' Hs]
  end.
  erewrite run_bind by exact Hs. eexists. reflexivity.
Qed.

Lemma target_send_loop_run (beyond : Lin_Interface → Z → Z) (n : nat) (i : Z)
    (o : Lin_Interface) :
  ∃ h : HardwareSerial,
    for_ n i (λ i, b ← Target.LinMessage_get beyond i; write b;; mret tt) o =
      (Ok tt, set_serial h o).
Proof.
  revert i o. induction n as [|n IH]; intros i o.
  - exists (serial o). by rewrite set_serial_same.
  - cbn [for_]. destruct (target_get_run beyond i o) as [b Hb].
    erewrite run_bind.
    2:{ erewrite run_bind by exact Hb. erewrite run_bind by reflexivity. reflexivity. }
    destruct (IH (i + 1) (set_serial (log (Write b) (serial o)) o)) as [h Hh].
    exists h. by rewrite Hh.
Qed.

(** Up to the echo check the target's writeFrame changes the transport and
    verboseMode, whatever the arguments. *)
Lemma target_writeFrame_prefix (beyond : Lin_Interface → Z → Z) (fuel : nat)
    (o : Lin_Interface) (FrameID dataLen : Z) :
  ∃ h : HardwareSerial,
    Target.writeFrame beyond fuel FrameID dataLen o =
      Target.echo_check beyond fuel (set_verboseMode 1 (set_serial h o)).
Proof.
  unfold Target.writeFrame. cbv zeta.
  destruct (target_getChecksum_run beyond (getProtectedID (uint8 FrameID)) (uint8 dataLen) o)
    as [cksum Hc].
  erewrite run_bind by exact Hc.
  destruct (startTransmission_run (getProtectedID (uint8 FrameID)) o) as [h1 Hs].
  erewrite run_bind by exact Hs.
  destruct (target_send_loop_run beyond (Z.to_nat (uint8 dataLen)) 0 (set_serial h1 o))
    as [h2 Hl].
  erewrite run_bind by exact Hl.
  erewrite run_bind by reflexivity.
  erewrite run_bind by reflexivity.
  erewrite run_bind by reflexivity.
  eexists. reflexivity.
Qed.

Section TargetKeeps.
(** An invariant of the object that survives the changes [allowed] makes to
    the transport, and any change to the buffer. *)
Variable beyond : Lin_Interface → Z → Z.
Variable I : Lin_Interface → Prop.
Variable allowed : (HardwareSerial → HardwareSerial) → Prop.
Hypothesis I_allowed : ∀ f o, allowed f → I o → I (set_serial (f (serial o)) o).
Hypothesis I_LinMessage : ∀ m o, I o → I (set_LinMessage m o).
Hypothesis allowed_pop : allowed pop.
Hypothesis allowed_flush : allowed (log Flush).
Hypothesis allowed_end : allowed (log End_).

Lemma target_keeps_on_serial (f : HardwareSerial → HardwareSerial) :
  allowed f → keeps I (on_serial f).
Proof. intros Hf o Ho. by apply I_allowed. Qed.

Lemma target_keeps_read : keeps I read.
Proof.
  unfold read. apply keeps_bind; [apply keeps_gets | intros r].
  apply keeps_bind; [by apply target_keeps_on_serial | intros _; apply keeps_ret].
Qed.

Lemma target_keeps_LinMessage_set (i v : Z) : keeps I (LinMessage_set i v).
Proof.
  unfold LinMessage_set. destruct (_ && _); [|apply keeps_raise].
  intros o Ho. by apply I_LinMessage.
Qed.

Lemma target_keeps_LinMessage_get (i : Z) : keeps I (Target.LinMessage_get beyond i).
Proof.
  unfold Target.LinMessage_get. destruct (_ && _); [|apply keeps_gets].
  apply keeps_bind; [apply keeps_gets | intros m; apply keeps_ret].
Qed.

Lemma target_keeps_sum_bytes (dataLen : nat) (sum : Z) :
  keeps I (Target.sum_bytes beyond dataLen sum).
Proof.
  revert sum. induction dataLen as [|n IH]; intros sum; [apply keeps_ret|].
  cbn [Target.sum_bytes].
  apply keeps_bind; [apply target_keeps_LinMessage_get | intros b; apply IH].
Qed.

Lemma target_keeps_getChecksum (ProtectedID dataLen : Z) :
  keeps I (Target.getChecksum beyond ProtectedID dataLen).
Proof.
  unfold Target.getChecksum.
  apply keeps_bind; [apply target_keeps_sum_bytes | intros s; apply keeps_ret].
Qed.

(** One step of a proof that the echo check keeps [I]. *)
Ltac target_keeps_step :=
  first
    [ apply keeps_ret | apply keeps_gets | apply target_keeps_read
    | apply target_keeps_LinMessage_get | apply target_keeps_LinMessage_set
    | apply target_keeps_getChecksum
    | apply target_keeps_on_serial; first [apply allowed_flush | apply allowed_end]
    | apply keeps_while; intros ?
    | apply keeps_bind; [|intros ?]
    | match goal with
      | |- keeps _ (if ?c then _ else _) => destruct c
      | |- keeps _ (let '(_, _) := ?p in _) => destruct p
      end ].

Lemma target_keeps_echo_check (fuel : nat) : keeps I (Target.echo_check beyond fuel).
Proof.
  unfold Target.echo_check, echo_body, flush, end_, available.
  repeat target_keeps_step.
Qed.
End TargetKeeps.

(** The target's run is the run of the model above whenever that one ends
    without a fault. *)
Lemma agrees_refl {A} (m : M A) : agrees m m.
Proof. by intros o a o' H. Qed.

Lemma agrees_bind {A B} (m m' : M A) (f f' : A → M B) :
  agrees m m' → (∀ a, agrees (f a) (f' a)) → agrees (m ≫= f) (m' ≫= f').
Proof.
  intros Hm Hf o b o'. unfold mbind, M_bind.
  destruct (m o) as [[a|e] o1] eqn:E; [|discriminate].
  rewrite (Hm _ _ _ E). apply Hf.
Qed.

Lemma agrees_LinMessage_get (beyond : Lin_Interface → Z → Z) (i : Z) :
  agrees (LinMessage_get i) (Target.LinMessage_get beyond i).
Proof.
  unfold LinMessage_get, Target.LinMessage_get.
  destruct (_ && _); [apply agrees_refl | by intros o a o' H].
Qed.

Lemma agrees_sum_bytes (beyond : Lin_Interface → Z → Z) (n : nat) (sum : Z) :
  agrees (sum_bytes n sum) (Target.sum_bytes beyond n sum).
Proof.
  revert sum. induction n as [|n IH]; intros sum; [apply agrees_refl|].
  cbn [sum_bytes Target.sum_bytes].
  apply agrees_bind; [apply agrees_LinMessage_get | intros b; apply IH].
Qed.

Lemma agrees_getChecksum (beyond : Lin_Interface → Z → Z) (ProtectedID dataLen : Z) :
  agrees (getChecksum ProtectedID dataLen) (Target.getChecksum beyond ProtectedID dataLen).
Proof.
  unfold getChecksum, Target.getChecksum.
  apply agrees_bind; [apply agrees_sum_bytes | intros s; apply agrees_refl].
Qed.

Lemma agrees_for (n : nat) (i : Z) (body body' : Z → M unit) :
  (∀ i, agrees (body i) (body' i)) → agrees (for_ n i body) (for_ n i body').
Proof.
  intros Hb. revert i. induction n as [|n IH]; intros i; [apply agrees_refl|].
  cbn [for_]. apply agrees_bind; [apply Hb | intros _; apply IH].
Qed.

Lemma agrees_echo_check (beyond : Lin_Interface → Z → Z) (fuel : nat) :
  agrees (echo_check fuel) (Target.echo_check beyond fuel).
Proof.
  unfold echo_check, Target.echo_check.
  do 6 (apply agrees_bind; [apply agrees_refl | intros ?]).
  apply agrees_bind; [apply agrees_refl | intros [moreData bytes_received]].
  apply agrees_bind; [apply agrees_LinMessage_get | intros Checksum_received].
  do 2 (apply agrees_bind; [apply agrees_refl | intros ?]).
  apply agrees_bind; [apply agrees_getChecksum | intros ?; apply agrees_refl].
Qed.

Lemma agrees_writeFrame (beyond : Lin_Interface → Z → Z) (fuel : nat) (FrameID dataLen : Z) :
  0 ≤ FrameID < 256 → 0 ≤ dataLen < 256 →
  agrees (writeFrame fuel FrameID dataLen) (Target.writeFrame beyond fuel FrameID dataLen).
Proof.
  intros Hf Hn. unfold writeFrame, Target.writeFrame. cbv zeta.
  rewrite !uint8_small by done.
  apply agrees_bind; [apply agrees_getChecksum | intros cksum].
  apply agrees_bind; [apply agrees_refl | intros _].
  apply agrees_bind.
  { apply agrees_for. intros i.
    apply agrees_bind; [apply agrees_LinMessage_get | intros b; apply agrees_refl]. }
  intros _.
  do 3 (apply agrees_bind; [apply agrees_refl | intros ?]).
  apply agrees_echo_check.
Qed.

Lemma agrees_writeFrameClassic (beyond : Lin_Interface → Z → Z) (FrameID dataLen : Z) :
  0 ≤ FrameID < 256 → 0 ≤ dataLen < 256 →
  agrees (writeFrameClassic FrameID dataLen) (Target.writeFrameClassic beyond FrameID dataLen).
Proof.
  intros Hf Hn. unfold writeFrameClassic, Target.writeFrameClassic. cbv zeta.
  rewrite !uint8_small by done.
  apply agrees_bind; [apply agrees_getChecksum | intros cksum].
  apply agrees_bind; [apply agrees_refl | intros _].
  apply agrees_bind.
  { apply agrees_for. intros i.
    apply agrees_bind; [apply agrees_LinMessage_get | intros b; apply agrees_refl]. }
  intros _. apply agrees_refl.
Qed.

(** With fuel for the thirteen cells of the buffer the target's writeFrame
    ends. *)
Lemma returns_bind {A B} (m : M A) (f : A → M B) :
  returns m → (∀ a, returns (f a)) → returns (m ≫= f).
Proof.
  intros Hm Hf o. destruct (Hm o) as (a & o1 & H1).
  erewrite run_bind by exact H1. apply Hf.
Qed.

Lemma returns_echo_loop (fuel : nat) (moreData : bool) (n : Z) :
  0 ≤ n → (Z.to_nat (13 - n) < fuel)%nat →
  returns (while_ fuel (λ _, available) echo_body (moreData, n)).
Proof.
  revert moreData n. induction fuel as [|fuel IH]; intros moreData n Hn Hf o; [lia|].
  cbn [while_]. erewrite run_bind by apply available_run.
  destruct (rx_fifo (serial o)) as [|b rest] eqn:Hrx; [by eexists _, _|].
  unfold echo_body. destruct (8 + 1 + 4 <=? n) eqn:Hb.
  - erewrite run_bind by reflexivity. by eexists _, _.
  - apply Z.leb_gt in Hb.
    erewrite run_bind.
    2:{ erewrite run_bind by apply read_run.
        unfold LinMessage_set, LinMessage_cells.
        replace ((0 <=? n) && (n <? 8 + 1 + 4)) with true
          by (symmetry; apply andb_true_iff; split; [apply Z.leb_le | apply Z.ltb_lt]; lia).
        erewrite run_bind by reflexivity. reflexivity. }
    apply IH; lia.
Qed.

Lemma returns_target_echo_check (beyond : Lin_Interface → Z → Z) (fuel : nat) :
  (14 ≤ fuel)%nat → returns (Target.echo_check beyond fuel).
Proof.
  intros Hfuel. unfold Target.echo_check.
  assert (Hread : returns read) by (intros o; eexists _, _; apply read_run).
  assert (Havail : returns available) by (intros o; eexists _, _; apply available_run).
  assert (Hret : ∀ A (a : A), returns (mret a)) by (intros A a o; by eexists _, _).
  apply returns_bind; [exact Havail | intros a1].
  apply returns_bind.
  { destruct a1; [|apply Hret]. apply returns_bind; [exact Hread | intros _; apply Hret]. }
  intros _. apply returns_bind; [exact Havail | intros a2].
  apply returns_bind.
  { destruct a2; [|apply Hret]. apply returns_bind; [exact Hread | intros r; apply Hret]. }
  intros RX_Sync. apply returns_bind; [exact Havail | intros a3].
  apply returns_bind.
  { destruct a3; [|apply Hret]. apply returns_bind; [exact Hread | intros r; apply Hret]. }
  intros RX_ProtectedID.
  apply returns_bind; [apply returns_echo_loop; lia | intros [moreData bytes_received]].
  apply returns_bind; [intros o; destruct (target_get_run beyond (bytes_received - 1) o) as [b Hb];
                       by eexists _, _ | intros Checksum_received].
  apply returns_bind; [intros o; eexists _, _; apply flush_run | intros _].
  apply returns_bind; [intros o; by eexists _, _ | intros _].
  apply returns_bind; [|intros c; apply Hret].
  intros o.
  destruct (target_getChecksum_run beyond RX_ProtectedID (uint8 (bytes_received - 1)) o)
    as [c Hc].
  by eexists _, _.
Qed.

(** C10: every call to writeFrame, whatever its arguments and wherever its
    reads of the buffer fall, sets verboseMode to 1 before it looks at the
    echoed bytes: the echo check starts on an object whose verboseMode is 1
    and that differs from the initial one in the transport only.  Whatever
    the previous value, verboseMode is 1 after the call, and baud, rxPin and
    txPin are unchanged.  With fuel for the thirteen cells of the buffer the
    call ends. *)
Theorem writeFrame_sets_verboseMode (beyond : Lin_Interface → Z → Z) (fuel : nat)
    (o : Lin_Interface) (FrameID dataLen : Z) :
  (∃ h : HardwareSerial,
     Target.writeFrame beyond fuel FrameID dataLen o =
       Target.echo_check beyond fuel (set_verboseMode 1 (set_serial h o)))
  ∧ (let o' := snd (Target.writeFrame beyond fuel FrameID dataLen o) in
     verboseMode o' = 1 ∧ baud o' = baud o ∧ rxPin o' = rxPin o ∧ txPin o' = txPin o)
  ∧ ((14 ≤ fuel)%nat →
     ∃ r, fst (Target.writeFrame beyond fuel FrameID dataLen o) = Ok r).
Proof.
  destruct (target_writeFrame_prefix beyond fuel o FrameID dataLen) as [h Hrun].
  split; [by exists h|]. rewrite Hrun. split.
  - apply (target_keeps_echo_check beyond
             (λ x, verboseMode x = 1 ∧ baud x = baud o ∧ rxPin x = rxPin o ∧ txPin x = txPin o)
             (λ _, True));
      done.
  - intros Hfuel.
    destruct (returns_target_echo_check beyond fuel Hfuel (set_verboseMode 1 (set_serial h o)))
      as (r & o' & Hr).
    exists r. by rewrite Hr.
Qed.

Lemma writeFrame_sets_verboseMode_witness :
  (14 ≤ 14)%nat
  ∧ verboseMode (snd (Target.writeFrame (λ _ i, i) 14 0x22 200
                        (new_Lin_Interface (received frame_0x22)))) = 1
  ∧ ∃ r, fst (Target.writeFrame (λ _ i, i) 14 0x22 200
                (new_Lin_Interface (received frame_0x22))) = Ok r.
Proof.
  destruct (writeFrame_sets_verboseMode (λ _ i, i) 14
              (new_Lin_Interface (received frame_0x22)) 0x22 200) as (_ & (Hv & _) & Hr).
  split; [lia|]. split; [exact Hv|]. apply Hr. lia.
Defined.

(** ** Which indices the echo check uses *)

Section Post.
Variable P : fault → Prop.

Lemma post_ret {A} (Q : A → Prop) (a : A) : Q a → post (mret a) Q P.
Proof. by intros Ha o. Qed.

Lemma post_bind {A B} (m : M A) (f : A → M B) (Q : A → Prop) (R : B → Prop) :
  post m Q P → (∀ a, Q a → post (f a) R P) → post (m ≫= f) R P.
Proof.
  intros Hm Hf o. specialize (Hm o). unfold mbind, M_bind.
  destruct (m o) as [[a|e] o']; cbn in *; [by apply Hf | done].
Qed.

Lemma post_weaken {A} (m : M A) (Q Q' : A → Prop) :
  post m Q P → (∀ a, Q a → Q' a) → post m Q' P.
Proof. intros Hm HQ o. specialize (Hm o). destruct (m o) as [[a|e] o']; cbn in *; auto. Qed.

Lemma post_gets {A} (f : Lin_Interface → A) : post (gets f) (λ _, True) P.
Proof. by intros o. Qed.

Lemma post_modify (f : Lin_Interface → Lin_Interface) : post (modify f) (λ _, True) P.
Proof. by intros o. Qed.

Lemma post_read : post read (λ _, True) P.
Proof. by intros o. Qed.

Lemma post_LinMessage_get (i : Z) :
  (¬ 0 ≤ i < 13 → P (OutOfBounds i)) → post (LinMessage_get i) (λ _, 0 ≤ i < 13) P.
Proof.
  intros Hi o. unfold LinMessage_get, LinMessage_cells.
  destruct ((0 <=? i) && (i <? 8 + 1 + 4)) eqn:Hb; unfold_M.
  - apply andb_true_iff in Hb as [?%Z.leb_le ?%Z.ltb_lt]. lia.
  - apply Hi. apply andb_false_iff in Hb as [Hb%Z.leb_gt | Hb%Z.ltb_ge]; lia.
Qed.

Lemma post_LinMessage_set (i v : Z) :
  0 ≤ i < 13 → post (LinMessage_set i v) (λ _, True) P.
Proof.
  intros Hi o. unfold LinMessage_set, LinMessage_cells.
  replace ((0 <=? i) && (i <? 8 + 1 + 4)) with true; [done|].
  symmetry. apply andb_true_iff. split; [apply Z.leb_le | apply Z.ltb_lt]; lia.
Qed.

Lemma post_getChecksum (ProtectedID dataLen : Z) :
  0 ≤ dataLen ≤ 13 → post (getChecksum ProtectedID dataLen) (λ _, True) P.
Proof.
  intros Hn o. destruct (getChecksum_ok o ProtectedID dataLen Hn) as [c Hc]. by rewrite Hc.
Qed.

Lemma post_while {L} (Inv : L → Prop) (fuel : nat)
    (cond : L → M bool) (body : L → M (ctl L)) (l : L) :
  P OutOfFuel →
  (∀ l, post (cond l) (λ _, True) P) →
  (∀ l, Inv l → post (body l) (λ r, match r with Continue l' | Break l' => Inv l' end) P) →
  Inv l → post (while_ fuel cond body l) Inv P.
Proof.
  intros Hfuel Hc Hb. revert l. induction fuel as [|fuel IH]; intros l Hl; [by intros o|].
  cbn [while_]. eapply post_bind; [apply Hc|]. intros [|] _; [|by apply post_ret].
  eapply post_bind; [by apply Hb|]. intros [l'|l'] Hl'; [by apply IH | by apply post_ret].
Qed.
End Post.

Lemma post_echo_body (P : fault → Prop) (l : bool * Z) :
  0 ≤ l.2 ≤ 13 →
  post (echo_body l) (λ r, match r with Continue l' | Break l' => 0 ≤ l'.2 ≤ 13 end) P.
Proof.
  destruct l as [moreData n]. cbn [snd]. intros Hn. unfold echo_body.
  destruct (8 + 1 + 4 <=? n) eqn:Hfull; [by apply post_ret|].
  apply Z.leb_gt in Hfull.
  eapply post_bind; [apply post_read|]. intros r _.
  eapply post_bind; [apply post_LinMessage_set; lia|]. intros _ _.
  apply post_ret. cbn. lia.
Qed.

(** Apart from running out of fuel, the echo check can only stop on the
    index -1: every other index it uses on the buffer is within [0, 12]. *)
Lemma echo_check_indices (fuel : nat) :
  post (echo_check fuel) (λ _, True) (λ e, e = OutOfBounds (-1) ∨ e = OutOfFuel).
Proof.
  set (P := λ e, e = OutOfBounds (-1) ∨ e = OutOfFuel).
  unfold echo_check.
  eapply post_bind; [apply post_gets|]. intros a _.
  eapply (post_bind _ _ _ (λ _, True)).
  { destruct a; [|by apply post_ret].
    eapply post_bind; [apply post_read | intros; by apply post_ret]. }
  intros _ _. eapply post_bind; [apply post_gets|]. intros a' _.
  eapply (post_bind _ _ _ (λ _, True)).
  { destruct a'; [|by apply post_ret].
    eapply post_bind; [apply post_read | intros; by apply post_ret]. }
  intros RX_Sync _. eapply post_bind; [apply post_gets|]. intros a'' _.
  eapply (post_bind _ _ _ (λ _, True)).
  { destruct a''; [|by apply post_ret].
    eapply post_bind; [apply post_read | intros; by apply post_ret]. }
  intros RX_ProtectedID _.
  eapply post_bind.
  { apply (post_while P (λ l : bool * Z, 0 ≤ l.2 ≤ 13)).
    - by right.
    - intros l. apply post_gets.
    - intros l Hl. by apply post_echo_body.
    - cbn. lia. }
  intros [moreData n] Hn. cbn [snd] in Hn.
  eapply post_bind.
  { apply post_LinMessage_get. intros Hout. left. f_equal. lia. }
  intros Checksum_received Hin. cbv beta in Hin.
  eapply post_bind; [apply post_modify|]. intros _ _.
  eapply post_bind; [apply post_modify|]. intros _ _.
  eapply post_bind.
  { apply post_getChecksum. rewrite uint8_small by lia. lia. }
  intros c _. by apply post_ret.
Qed.

(** ** Runs of the whole functions *)

(** With [LINSIMULATION] defined, a timeout yields the frame 0x22: the
    checksum stored behind the payload is 0x18 and the frame is accepted. *)
Example listenBus_simulated_frame :
  let r := listenBus true 502 (new_Lin_Interface (silent 0)) in
  fst r = Ok true
  ∧ LinMessage (snd r) = payload ++ [0x18; 0x00; 0x00; 0x00; 0x00]
  ∧ LinMessageID (snd r) = 0x22
  ∧ LinMessageSize (snd r) = 9.
Proof. vm_compute. done. Qed.

(** Stray bytes before the header do not disturb the frame that follows. *)
Example listenBus_resynchronises :
  let r := listenBus false 40 (new_Lin_Interface (received ([0x13; 0x55; 0x00; 0x7F] ++ frame_0x22))) in
  fst r = Ok true
  ∧ take 9 (LinMessage (snd r)) = payload ++ [0x57]
  ∧ LinMessageID (snd r) = 0x22.
Proof. vm_compute. done. Qed.

(** Twelve bytes after the identifier: nine are kept, three are read and
    dropped, and the receive queue is empty afterwards. *)
Example listenBus_overflow :
  let r := listenBus false 40
             (new_Lin_Interface (received ([0x00; 0x55; 0xE2] ++ payload ++ [0x57; 0x01; 0x02; 0x03]))) in
  fst r = Ok true
  ∧ LinMessage (snd r) = payload ++ [0x57; 0x00; 0x00; 0x00; 0x00]
  ∧ LinMessageSize (snd r) = 9
  ∧ rx_fifo (serial (snd r)) = [].
Proof. vm_compute. done. Qed.

(** The bytes readFrame and writeFrame put on the bus. *)
Example readFrame_calls :
  calls (serial (snd (readFrame false 502 0x22 (new_Lin_Interface (silent 0))))) =
    [Begin 19200 None; Flush; UpdateBaudRate 9600; Write 0x00; Flush; UpdateBaudRate 19200;
     Write 0x55; Write 0xE2; Flush; Flush; End_].
Proof. vm_compute. done. Qed.

Example writeFrame_echoed :
  fst (writeFrame 14 0x22 8 (with_data payload (new_Lin_Interface (received frame_0x22)))) =
    Ok (0x55, 0xE2, false, 0x57, 0x57).
Proof. vm_compute. done. Qed.

(** * Further properties *)

Lemma run_bind_fault' {A B} (m : M A) (f : A → M B) o e o' :
  m o = (Fault e, o') → (m ≫= f) o = (Fault e, o').
Proof. intros H. unfold mbind, M_bind. by rewrite H. Qed.

(** ** The protected identifier *)

(** X1: getProtectedID looks at the low six bits of its argument only: a
    FrameID byte above 63 gives the protected identifier of FrameID & 0x3F. *)
Theorem getProtectedID_high_bits (FrameID : Z) :
  0 ≤ FrameID < 256 → getProtectedID FrameID = getProtectedID (Z.land FrameID 0x3F).
Proof.
  intros H.
  assert (Hall : all_in_range high_bits_ignored 0 256 = true) by (vm_compute; reflexivity).
  pose proof (all_in_range_spec _ _ _ FrameID Hall ltac:(lia)) as Hok.
  by apply Z.eqb_eq.
Qed.

Lemma getProtectedID_high_bits_witness :
  getProtectedID 0xE2 = getProtectedID (Z.land 0xE2 0x3F).
Proof. apply (getProtectedID_high_bits 0xE2). lia. Defined.

(** X2: flipping any single bit of the protected identifier of a frame gives
    a byte that is the protected identifier of no frame. *)
Theorem getProtectedID_single_bit_flip (f g k : Z) :
  0 ≤ f ≤ 63 → 0 ≤ g ≤ 63 → 0 ≤ k ≤ 7 →
  Z.lxor (getProtectedID f) (2 ^ k) ≠ getProtectedID g.
Proof.
  intros Hf Hg Hk.
  assert (Hall : all_in_range (λ f, all_in_range (flip_detected f) 0 8) 0 64 = true)
    by (vm_compute; reflexivity).
  pose proof (all_in_range_spec _ _ _ f Hall ltac:(lia)) as Hf'. cbv beta in Hf'.
  pose proof (all_in_range_spec _ _ _ k Hf' ltac:(lia)) as Hk'.
  pose proof (all_in_range_spec _ _ _ g Hk' ltac:(lia)) as Hg'. cbv beta in Hg'.
  apply negb_true_iff in Hg'. by apply Z.eqb_neq.
Qed.

Lemma getProtectedID_single_bit_flip_witness :
  Z.lxor (getProtectedID 0x22) (2 ^ 6) ≠ getProtectedID 0x22.
Proof. apply (getProtectedID_single_bit_flip 0x22 0x22 6); lia. Defined.

(** ** The checksum: bounds *)

Lemma kept_seed_byte (seed : Z) : is_byte seed → is_byte (kept_seed seed).
Proof. unfold is_byte, kept_seed. destruct (_ <=? _); lia. Qed.

Lemma sum_bytes_bound (d : list Z) :
  Forall is_byte d → 0 ≤ foldr Z.add 0 d ≤ 255 * Z.of_nat (length d).
Proof. unfold is_byte. induction 1; cbn [foldr length]; lia. Qed.

(** Past the end of the buffer the summing loop stops on its first read. *)
Lemma sum_bytes_outside (o : Lin_Interface) (dataLen : nat) (sum : Z) :
  (13 < dataLen)%nat →
  sum_bytes dataLen sum o = (Fault (OutOfBounds (Z.of_nat dataLen - 1)), o).
Proof.
  intros Hn. destruct dataLen as [|n]; [lia|]. cbn [sum_bytes].
  unfold LinMessage_get, LinMessage_cells.
  replace ((0 <=? Z.of_nat n) && (Z.of_nat n <? 8 + 1 + 4)) with false
    by (symmetry; apply andb_false_iff; right; apply Z.ltb_ge; lia).
  unfold_M. repeat f_equal. lia.
Qed.

(** X3: getChecksum reads the cells dataLen - 1 down to 0.  For
    dataLen <= 13 it returns a byte and leaves the object as it was; for a
    larger dataLen it stops on the index dataLen - 1, outside the buffer. *)
Theorem getChecksum_bounds (o : Lin_Interface) (ProtectedID dataLen : Z) :
  0 ≤ dataLen < 256 →
  if dataLen <=? 13
  then ∃ c : Z, getChecksum ProtectedID dataLen o = (Ok c, o) ∧ is_byte c
  else getChecksum ProtectedID dataLen o = (Fault (OutOfBounds (dataLen - 1)), o).
Proof.
  intros Hn. destruct (dataLen <=? 13) eqn:Hle.
  - apply Z.leb_le in Hle.
    destruct (getChecksum_ok o ProtectedID dataLen ltac:(lia)) as [c Hc].
    exists c. split; [done|].
    unfold getChecksum in Hc. unfold mbind, M_bind in Hc.
    destruct (sum_bytes _ _ o) as [[s|e] o']; [|done].
    injection Hc as <- _. unfold is_byte, uint8. apply Z.mod_pos_bound. lia.
  - apply Z.leb_gt in Hle. unfold getChecksum.
    erewrite run_bind_fault'; [reflexivity|].
    rewrite sum_bytes_outside by lia. repeat f_equal. lia.
Qed.

Lemma getChecksum_bounds_witness :
  getChecksum 0x22 255 (new_Lin_Interface (silent 0)) =
    (Fault (OutOfBounds 254), new_Lin_Interface (silent 0)).
Proof. apply (getChecksum_bounds (new_Lin_Interface (silent 0)) 0x22 255). lia. Defined.

(** ** The checksum: a sum modulo 255 *)

(** What the folding loop computes: 0 for 0, and otherwise the residue of
    the sum modulo 255 taken in 1 .. 255. *)
Lemma fold_carry_closed (sum : Z) :
  0 ≤ sum < 2 ^ 16 →
  fold_carry sum = if sum =? 0 then 0 else (sum - 1) `mod` 255 + 1.
Proof.
  funelim (fold_carry sum); intros Hs.
  - pose proof l as Hl. rewrite Z.shiftr_div_pow2 in Hl by lia.
    change 255 with (Z.ones 8) in H |- * at 1.
    rewrite Z.land_ones in H |- * by lia.
    pose proof (Z.div_mod sum (2 ^ 8) ltac:(lia)).
    pose proof (Z.mod_pos_bound sum (2 ^ 8) ltac:(lia)).
    assert (sum `div` 2 ^ 8 < 2 ^ 8) by (apply Z.div_lt_upper_bound; lia).
    rewrite Z.shiftr_div_pow2 in H |- * by lia.
    assert (Hu : uint16 (sum `mod` 2 ^ 8 + sum `div` 2 ^ 8) = sum `mod` 2 ^ 8 + sum `div` 2 ^ 8)
      by (unfold uint16; apply Z.mod_small; lia).
    rewrite Hu in H |- *. rewrite H by lia.
    destruct (Z.eqb_spec (sum `mod` 2 ^ 8 + sum `div` 2 ^ 8) 0) as [?|_]; [lia|].
    destruct (Z.eqb_spec sum 0) as [?|_]; [lia|].
    f_equal.
    replace (sum - 1) with (sum `mod` 2 ^ 8 + sum `div` 2 ^ 8 - 1 + sum `div` 2 ^ 8 * 255) by lia.
    by rewrite Z.mod_add by lia.
  - pose proof n as Hn. rewrite Z.shiftr_div_pow2 in Hn by lia.
    pose proof (Z.div_pos sum (2 ^ 8) ltac:(lia) ltac:(lia)).
    pose proof (Z.div_mod sum (2 ^ 8) ltac:(lia)).
    pose proof (Z.mod_pos_bound sum (2 ^ 8) ltac:(lia)).
    destruct (Z.eqb_spec sum 0) as [?|?]; [lia|].
    destruct (Z.eq_dec sum 255) as [->|?]; [reflexivity|].
    rewrite Z.mod_small by lia. lia.
Qed.

Lemma checksum_closed (seed : Z) (d : list Z) :
  0 ≤ seed + foldr Z.add 0 d < 2 ^ 16 →
  checksum seed d =
    if seed + foldr Z.add 0 d =? 0 then 255
    else 254 - (seed + foldr Z.add 0 d - 1) `mod` 255.
Proof.
  intros Hs. unfold checksum.
  assert (Hu : uint16 (seed + foldr Z.add 0 d) = seed + foldr Z.add 0 d)
    by (unfold uint16; apply Z.mod_small; lia).
  rewrite Hu, fold_carry_closed by done.
  pose proof (Z.mod_pos_bound (seed + foldr Z.add 0 d - 1) 255 ltac:(lia)).
  unfold uint8, Z.lnot, Z.pred.
  destruct (_ =? 0).
  - reflexivity.
  - replace (- ((seed + foldr Z.add 0 d - 1) `mod` 255 + 1) + -1)
      with (254 - (seed + foldr Z.add 0 d - 1) `mod` 255 + -1 * 2 ^ 8) by lia.
    rewrite Z.mod_add by lia. apply Z.mod_small. lia.
Qed.

Lemma sum_insert (d : list Z) (i : nat) (b v : Z) :
  d !! i = Some b → foldr Z.add 0 (<[i:=v]> d) = foldr Z.add 0 d + v - b.
Proof.
  revert i. induction d as [|x d IH]; intros [|i] Hi; try done.
  - injection Hi as ->. cbn. lia.
  - change (<[S i:=v]> (x :: d)) with (x :: <[i:=v]> d). cbn [foldr].
    rewrite (IH i Hi). lia.
Qed.

Lemma Forall_insert_byte (d : list Z) (i : nat) (v : Z) :
  Forall is_byte d → is_byte v → Forall is_byte (<[i:=v]> d).
Proof. intros Hd Hv. by apply Forall_insert. Qed.

(** [getChecksum] on a buffer loaded with bytes, through the closed form. *)
Lemma getChecksum_with_data (o : Lin_Interface) (seed : Z) (d : list Z) :
  is_byte seed → (length d ≤ 13)%nat → Forall is_byte d →
  0 ≤ kept_seed seed + foldr Z.add 0 d < 2 ^ 16
  ∧ getChecksum seed (Z.of_nat (length d)) (with_data d o) =
      (Ok (checksum (kept_seed seed) d), with_data d o).
Proof.
  intros Hs Hlen Hd.
  pose proof (kept_seed_byte seed Hs) as Hk. pose proof (sum_bytes_bound d Hd) as Hsum.
  unfold is_byte in *. split; [lia|].
  rewrite getChecksum_run by (unfold is_byte in *; lia).
  by rewrite Nat2Z.id, take_with_data.
Qed.

Lemma checksum_byte (seed : Z) (d : list Z) : is_byte (checksum seed d).
Proof. unfold is_byte, checksum, uint8. apply Z.mod_pos_bound. lia. Qed.

(** X4: a frame that carries its own checksum sums to 0xFF: when the byte
    behind the data is the checksum of the data, getChecksum over the data
    and that byte returns 0x00. *)
Theorem getChecksum_of_valid_frame (o : Lin_Interface) (seed : Z) (d : list Z) :
  is_byte seed → (length d ≤ 12)%nat → Forall is_byte d →
  ∃ c : Z,
    fst (getChecksum seed (Z.of_nat (length d)) (with_data d o)) = Ok c
    ∧ fst (getChecksum seed (Z.of_nat (length (d ++ [c]))) (with_data (d ++ [c]) o)) = Ok 0x00.
Proof.
  intros Hs Hlen Hd.
  destruct (getChecksum_with_data o seed d Hs ltac:(lia) Hd) as [Hsum ->].
  eexists. split; [reflexivity|].
  pose proof (checksum_byte (kept_seed seed) d) as Hc.
  destruct (getChecksum_with_data o seed (d ++ [checksum (kept_seed seed) d]) Hs) as [Hsum' ->].
  { rewrite length_app. cbn. lia. }
  { apply Forall_app. split; [done|]. by apply Forall_singleton. }
  cbn [fst]. f_equal.
  rewrite checksum_closed by done. rewrite sum_snoc in Hsum' |- *.
  rewrite checksum_closed in Hsum' |- * by done.
  set (S := kept_seed seed + foldr Z.add 0 d) in *.
  destruct (Z.eqb_spec S 0) as [HS|HS].
  - replace (kept_seed seed + (foldr Z.add 0 d + 255)) with 255 by (subst S; lia).
    reflexivity.
  - pose proof (Z.div_mod (S - 1) 255 ltac:(lia)).
    pose proof (Z.mod_pos_bound (S - 1) 255 ltac:(lia)).
    destruct (Z.eqb_spec (kept_seed seed + (foldr Z.add 0 d + (254 - (S - 1) `mod` 255))) 0)
      as [?|_]; [subst S; lia|].
    replace (kept_seed seed + (foldr Z.add 0 d + (254 - (S - 1) `mod` 255)) - 1)
      with (254 + (S - 1) `div` 255 * 255) by (subst S; lia).
    rewrite Z.mod_add by lia. reflexivity.
Qed.

Lemma getChecksum_of_valid_frame_witness :
  ∃ c : Z,
    fst (getChecksum 0x22 8 (with_data payload (new_Lin_Interface (silent 0)))) = Ok c
    ∧ fst (getChecksum 0x22 9 (with_data (payload ++ [c]) (new_Lin_Interface (silent 0)))) =
        Ok 0x00.
Proof.
  apply (getChecksum_of_valid_frame (new_Lin_Interface (silent 0)) 0x22 payload).
  - unfold is_byte. lia.
  - cbn. lia.
  - unfold is_byte. repeat constructor; lia.
Defined.

(** The checksums of two sums differ when the sums differ modulo 255. *)
Lemma checksum_differs (seed : Z) (d d' : list Z) :
  0 ≤ seed + foldr Z.add 0 d < 2 ^ 16 →
  0 ≤ seed + foldr Z.add 0 d' < 2 ^ 16 →
  (foldr Z.add 0 d' - foldr Z.add 0 d) `mod` 255 ≠ 0 →
  checksum seed d' ≠ checksum seed d.
Proof.
  intros Hs Hs' Hne. rewrite !checksum_closed by done.
  set (S := seed + foldr Z.add 0 d) in *. set (S' := seed + foldr Z.add 0 d') in *.
  assert (Hd : (S' - S) `mod` 255 ≠ 0)
    by (replace (S' - S) with (foldr Z.add 0 d' - foldr Z.add 0 d) by (subst S S'; lia); done).
  clearbody S S'.
  pose proof (Z.div_mod (S - 1) 255 ltac:(lia)).
  pose proof (Z.mod_pos_bound (S - 1) 255 ltac:(lia)).
  pose proof (Z.div_mod (S' - 1) 255 ltac:(lia)).
  pose proof (Z.mod_pos_bound (S' - 1) 255 ltac:(lia)).
  pose proof (Z.div_mod (S' - S) 255 ltac:(lia)).
  pose proof (Z.mod_pos_bound (S' - S) 255 ltac:(lia)).
  destruct (Z.eqb_spec S' 0), (Z.eqb_spec S 0); subst; lia.
Qed.

Lemma checksum_agrees (seed : Z) (d d' : list Z) :
  0 < seed + foldr Z.add 0 d < 2 ^ 16 →
  0 < seed + foldr Z.add 0 d' < 2 ^ 16 →
  (foldr Z.add 0 d' - foldr Z.add 0 d) `mod` 255 = 0 →
  checksum seed d' = checksum seed d.
Proof.
  intros Hs Hs' He. rewrite !checksum_closed by lia.
  set (S := seed + foldr Z.add 0 d) in *. set (S' := seed + foldr Z.add 0 d') in *.
  assert (Hd : (S' - S) `mod` 255 = 0)
    by (replace (S' - S) with (foldr Z.add 0 d' - foldr Z.add 0 d) by (subst S S'; lia); done).
  clearbody S S'.
  destruct (Z.eqb_spec S' 0), (Z.eqb_spec S 0); try lia.
  f_equal.
  pose proof (Z.div_mod (S' - S) 255 ltac:(lia)) as Hq. rewrite Hd in Hq.
  replace (S' - 1) with (S - 1 + (S' - S) `div` 255 * 255) by lia.
  by rewrite Z.mod_add by lia.
Qed.

(** X5: getChecksum notices the change of a single data byte from b to v
    whenever v - b is not a multiple of 255, whatever the seed. *)
Theorem getChecksum_detects_byte_change (o : Lin_Interface) (seed : Z) (d : list Z)
    (i : nat) (b v : Z) :
  is_byte seed → (length d ≤ 13)%nat → Forall is_byte d →
  d !! i = Some b → is_byte v → (v - b) `mod` 255 ≠ 0 →
  fst (getChecksum seed (Z.of_nat (length (<[i:=v]> d))) (with_data (<[i:=v]> d) o)) ≠
  fst (getChecksum seed (Z.of_nat (length d)) (with_data d o)).
Proof.
  intros Hs Hlen Hd Hi Hv Hne.
  destruct (getChecksum_with_data o seed d Hs Hlen Hd) as [Hsum ->].
  destruct (getChecksum_with_data o seed (<[i:=v]> d) Hs) as [Hsum' ->].
  { by rewrite length_insert. }
  { by apply Forall_insert_byte. }
  cbn [fst]. intros [= Heq]. revert Heq.
  apply checksum_differs; [done | done |].
  rewrite (sum_insert d i b v Hi).
  by replace (foldr Z.add 0 d + v - b - foldr Z.add 0 d) with (v - b) by lia.
Qed.

Lemma getChecksum_detects_byte_change_witness :
  fst (getChecksum 0x22 8 (with_data (<[2%nat:=0x1F]> payload) (new_Lin_Interface (silent 0)))) ≠
  fst (getChecksum 0x22 8 (with_data payload (new_Lin_Interface (silent 0)))).
Proof.
  apply (getChecksum_detects_byte_change (new_Lin_Interface (silent 0)) 0x22 payload 2 0x1E 0x1F).
  - unfold is_byte. lia.
  - cbn. lia.
  - unfold is_byte. repeat constructor; lia.
  - reflexivity.
  - unfold is_byte. lia.
  - vm_compute. discriminate.
Defined.

(** X6: with an Enhanced seed that is not zero, getChecksum does not notice
    a data byte 0x00 replaced by 0xFF, nor 0xFF replaced by 0x00. *)
Theorem getChecksum_blind_to_00_FF (o : Lin_Interface) (seed : Z) (d : list Z)
    (i : nat) (b v : Z) :
  is_byte seed → 0 < seed → Z.land seed 0x3F < 0x3C →
  (length d ≤ 13)%nat → Forall is_byte d →
  d !! i = Some b →
  (b = 0x00 ∧ v = 0xFF) ∨ (b = 0xFF ∧ v = 0x00) →
  fst (getChecksum seed (Z.of_nat (length (<[i:=v]> d))) (with_data (<[i:=v]> d) o)) =
  fst (getChecksum seed (Z.of_nat (length d)) (with_data d o)).
Proof.
  intros Hs Hpos Hmode Hlen Hd Hi Hbv.
  assert (Hv : is_byte v) by (unfold is_byte; lia).
  destruct (getChecksum_with_data o seed d Hs Hlen Hd) as [Hsum ->].
  destruct (getChecksum_with_data o seed (<[i:=v]> d) Hs) as [Hsum' ->].
  { by rewrite length_insert. }
  { by apply Forall_insert_byte. }
  cbn [fst]. f_equal.
  assert (Hk : kept_seed seed = seed).
  { unfold kept_seed. destruct (Z.leb_spec 0x3C (Z.land seed 0x3F)); [lia | done]. }
  rewrite Hk in *.
  pose proof (sum_bytes_bound d Hd). pose proof (sum_bytes_bound _ (Forall_insert_byte d i v Hd Hv)).
  apply checksum_agrees; [lia | lia |].
  rewrite (sum_insert d i b v Hi).
  replace (foldr Z.add 0 d + v - b - foldr Z.add 0 d) with (v - b) by lia.
  destruct Hbv as [[-> ->]|[-> ->]]; reflexivity.
Qed.

Lemma getChecksum_blind_to_00_FF_witness :
  fst (getChecksum 0xE2 3 (with_data (<[1%nat:=0xFF]> [0x10; 0x00; 0x20]) (new_Lin_Interface (silent 0)))) =
  fst (getChecksum 0xE2 3 (with_data [0x10; 0x00; 0x20] (new_Lin_Interface (silent 0)))).
Proof.
  apply (getChecksum_blind_to_00_FF (new_Lin_Interface (silent 0)) 0xE2 [0x10; 0x00; 0x20]
           1 0x00 0xFF).
  - unfold is_byte. lia.
  - lia.
  - vm_compute. reflexivity.
  - cbn. lia.
  - unfold is_byte. repeat constructor; lia.
  - reflexivity.
  - left. split; reflexivity.
Defined.

(** ** The validity test of listenBus *)

(** [0xFF == (uint8_t)(Checksum + ~c)] holds exactly when the two bytes are
    equal. *)
Lemma validity_test (Checksum c : Z) :
  is_byte Checksum → is_byte c →
  (0xFF =? uint8 (Checksum + Z.lnot c)) = bool_decide (Checksum = c).
Proof.
  unfold is_byte, uint8, Z.lnot, Z.pred. intros HC Hc.
  destruct (decide (Checksum = c)) as [->|Hne].
  - rewrite bool_decide_eq_true_2 by done.
    replace (c + (- c + -1)) with (255 + -1 * 2 ^ 8) by lia.
    by rewrite Z.mod_add, Z.mod_small by lia.
  - rewrite bool_decide_eq_false_2 by done. apply Z.eqb_neq.
    destruct (Z_lt_dec (Checksum + (- c + -1)) 0).
    + replace (Checksum + (- c + -1)) with (Checksum - c + 255 + -1 * 2 ^ 8) by lia.
      rewrite Z.mod_add, Z.mod_small by lia. lia.
    + rewrite Z.mod_small by lia. lia.
Qed.

Lemma listen_report_value (o : Lin_Interface) (n ProtectedID : Z) :
  1 ≤ n ≤ 9 → is_byte ProtectedID →
  is_byte (default 0 (LinMessage o !! Z.to_nat (n - 1))) →
  listen_report n ProtectedID o =
    (Ok (bool_decide (default 0 (LinMessage o !! Z.to_nat (n - 1)) =
                      checksum (kept_seed ProtectedID) (take (Z.to_nat (n - 1)) (LinMessage o)))),
     set_LinMessageID (Z.land ProtectedID 0x3F) (set_LinMessageSize n o)).
Proof.
  intros Hn Hp Hc. unfold listen_report.
  replace (0 <? n) with true by (symmetry; apply Z.ltb_lt; lia).
  erewrite run_bind by (apply LinMessage_get_run_Z; lia).
  rewrite !uint8_small by lia.
  erewrite run_bind by (apply getChecksum_run; unfold is_byte in *; lia).
  rewrite validity_test by (done || apply checksum_byte).
  reflexivity.
Qed.

(** X7: for a reception of n bytes (1 <= n <= 9) the validity test of
    listenBus is true exactly when the last byte received equals what
    getChecksum returns for the n - 1 bytes before it. *)
Theorem listen_report_accepts_iff (o : Lin_Interface) (n ProtectedID : Z) :
  1 ≤ n ≤ 9 → is_byte ProtectedID →
  is_byte (default 0 (LinMessage o !! Z.to_nat (n - 1))) →
  ∃ c : Z,
    getChecksum ProtectedID (n - 1) o = (Ok c, o)
    ∧ fst (listen_report n ProtectedID o) =
        Ok (bool_decide (default 0 (LinMessage o !! Z.to_nat (n - 1)) = c)).
Proof.
  intros Hn Hp Hc. eexists. split.
  - apply getChecksum_run; unfold is_byte in *; lia.
  - by rewrite listen_report_value.
Qed.

Lemma listen_report_accepts_iff_witness :
  ∃ c : Z,
    getChecksum 0x22 (9 - 1) (holding payload 0x19) = (Ok c, holding payload 0x19)
    ∧ fst (listen_report 9 0x22 (holding payload 0x19)) =
        Ok (bool_decide (default 0 (LinMessage (holding payload 0x19) !! Z.to_nat (9 - 1)) = c)).
Proof.
  apply (listen_report_accepts_iff (holding payload 0x19) 9 0x22).
  - lia.
  - unfold is_byte. lia.
  - vm_compute. split; [discriminate | reflexivity].
Defined.

(** ** What is put on the bus *)

Lemma logs_logs (cs cs' : list call) (h : HardwareSerial) :
  logs cs' (logs cs h) = logs (cs ++ cs') h.
Proof. unfold logs. cbn. by rewrite <- (assoc_L (++)). Qed.

Lemma log_logs (c : call) (h : HardwareSerial) : log c h = logs [c] h.
Proof. reflexivity. Qed.

Lemma elapse_logs (d : Z) (cs : list call) (h : HardwareSerial) :
  elapse d (logs cs h) = logs cs (elapse d h).
Proof. unfold elapse, logs. cbn. by destruct (arrive d (wire h)). Qed.

Lemma logs_nil (h : HardwareSerial) : logs [] h = h.
Proof. unfold logs. rewrite app_nil_r. by destruct h. Qed.

Lemma startTransmission_exact (ProtectedID : Z) (o : Lin_Interface) :
  startTransmission ProtectedID o =
    (Ok tt, set_serial (logs (header_calls o ProtectedID) (elapse 20 (serial o))) o).
Proof.
  unfold startTransmission, setupSerial, writeBreak, header_calls. unfold_M.
  destruct ((rxPin o <? 0) && (txPin o <? 0)); unfold_M;
    rewrite !log_logs, elapse_logs, !logs_logs; reflexivity.
Qed.

Lemma send_loop_exact (n i : nat) (o : Lin_Interface) :
  (i + n ≤ length (LinMessage o))%nat → (i + n ≤ 13)%nat →
  for_ n (Z.of_nat i) (λ i, b ← LinMessage_get i; write b;; mret tt) o =
    (Ok tt, set_serial (logs (Write <$> take n (drop i (LinMessage o))) (serial o)) o).
Proof.
  revert i o. induction n as [|n IH]; intros i o Hlen Hn.
  - cbn. by rewrite logs_nil, set_serial_same.
  - cbn [for_].
    destruct (lookup_lt_is_Some_2 (LinMessage o) i ltac:(lia)) as [x Hx].
    erewrite run_bind.
    2:{ erewrite run_bind by (apply LinMessage_get_run; lia).
        erewrite run_bind by reflexivity. reflexivity. }
    replace (Z.of_nat i + 1) with (Z.of_nat (S i)) by lia.
    rewrite IH by (cbn; lia). cbn [LinMessage serial set_serial].
    rewrite Hx. cbn [default]. rewrite log_logs, logs_logs.
    by rewrite (drop_S _ _ _ Hx).
Qed.

Lemma writeFrameClassic_run (o : Lin_Interface) (FrameID dataLen : Z) :
  length (LinMessage o) = 13%nat → 0 ≤ dataLen ≤ 13 →
  let data := take (Z.to_nat dataLen) (LinMessage o) in
  writeFrameClassic FrameID dataLen o =
    (Ok tt,
     set_serial
       (logs (header_calls o (getProtectedID FrameID) ++ (Write <$> data) ++
              [Write (checksum 0 data); Flush; End_])
             (elapse 20 (serial o))) o).
Proof.
  intros Hlen Hn data. unfold writeFrameClassic.
  erewrite run_bind by (apply getChecksum_run; lia).
  erewrite run_bind by apply startTransmission_exact.
  erewrite run_bind by (apply (send_loop_exact _ 0); cbn; lia).
  cbn [LinMessage serial set_serial]. rewrite drop_0.
  unfold_M. rewrite !log_logs, !logs_logs.
  change (if 60 <=? Z.land 0 63 then 0 else 0) with 0.
  reflexivity.
Qed.

(** X8: for dataLen <= 13, writeFrameClassic makes these calls and no
    others: the header of startTransmission (begin, the break bracket, sync,
    protected identifier), one write per data byte in buffer order, a write
    of what getChecksum returns for the seed 0x00 whatever the FrameID,
    flush, end.  It returns without changing any field of the object. *)
Theorem writeFrameClassic_calls (o : Lin_Interface) (FrameID dataLen : Z) :
  length (LinMessage o) = 13%nat → 0 ≤ dataLen ≤ 13 →
  ∃ cksum : Z,
    getChecksum 0x00 dataLen o = (Ok cksum, o)
    ∧ writeFrameClassic FrameID dataLen o =
        (Ok tt,
         set_serial
           (logs (header_calls o (getProtectedID FrameID) ++
                  (Write <$> take (Z.to_nat dataLen) (LinMessage o)) ++
                  [Write cksum; Flush; End_])
                 (elapse 20 (serial o))) o).
Proof.
  intros Hlen Hn. eexists. split.
  - apply getChecksum_run; lia.
  - by rewrite writeFrameClassic_run.
Qed.

Lemma writeFrameClassic_calls_witness :
  ∃ cksum : Z,
    getChecksum 0x00 2 (with_data [0x01; 0x02] (new_Lin_Interface (silent 0))) =
      (Ok cksum, with_data [0x01; 0x02] (new_Lin_Interface (silent 0)))
    ∧ writeFrameClassic 0x22 2 (with_data [0x01; 0x02] (new_Lin_Interface (silent 0))) =
        (Ok tt,
         set_serial
           (logs (header_calls (with_data [0x01; 0x02] (new_Lin_Interface (silent 0)))
                               (getProtectedID 0x22) ++
                  (Write <$> take (Z.to_nat 2)
                     (LinMessage (with_data [0x01; 0x02] (new_Lin_Interface (silent 0))))) ++
                  [Write cksum; Flush; End_])
                 (elapse 20 (serial (with_data [0x01; 0x02] (new_Lin_Interface (silent 0))))))
           (with_data [0x01; 0x02] (new_Lin_Interface (silent 0)))).
Proof.
  apply (writeFrameClassic_calls (with_data [0x01; 0x02] (new_Lin_Interface (silent 0))) 0x22 2).
  - reflexivity.
  - lia.
Defined.

Lemma getProtectedID_byte (FrameID : Z) : is_byte (getProtectedID FrameID).
Proof. unfold is_byte, getProtectedID, uint8. apply Z.mod_pos_bound. lia. Qed.

(** What writeFrame has done when its echo check begins. *)
Lemma writeFrame_transmits (fuel : nat) (o : Lin_Interface) (FrameID dataLen : Z) :
  length (LinMessage o) = 13%nat → 0 ≤ dataLen ≤ 13 →
  let ProtectedID := getProtectedID FrameID in
  let data := take (Z.to_nat dataLen) (LinMessage o) in
  writeFrame fuel FrameID dataLen o =
    echo_check fuel
      (set_verboseMode 1
         (set_serial
            (elapse 10
               (logs (header_calls o ProtectedID ++ (Write <$> data) ++
                      [Write (checksum (kept_seed ProtectedID) data)])
                     (elapse 20 (serial o)))) o)).
Proof.
  intros Hlen Hn ProtectedID data. unfold writeFrame.
  pose proof (getProtectedID_byte FrameID) as Hp. unfold is_byte in Hp.
  erewrite run_bind by (apply getChecksum_run; lia).
  erewrite run_bind by apply startTransmission_exact.
  erewrite run_bind by (apply (send_loop_exact _ 0); cbn; lia).
  cbn [LinMessage serial set_serial]. rewrite drop_0.
  erewrite run_bind by reflexivity.
  erewrite run_bind by reflexivity.
  erewrite run_bind by reflexivity.
  cbn [LinMessage serial set_serial]. rewrite !log_logs, !logs_logs.
  reflexivity.
Qed.

(** ** What the receiving code leaves alone *)

Section Allowed.
(** An invariant of the object that survives the changes [allowed] makes to
    the transport, and any change to the buffer and to the reported
    identifier and size. *)
Variable I : Lin_Interface → Prop.
Variable allowed : (HardwareSerial → HardwareSerial) → Prop.
Hypothesis I_allowed : ∀ f o, allowed f → I o → I (set_serial (f (serial o)) o).
Hypothesis I_LinMessage : ∀ m o, I o → I (set_LinMessage m o).
Hypothesis I_LinMessageID : ∀ v o, I o → I (set_LinMessageID v o).
Hypothesis I_LinMessageSize : ∀ v o, I o → I (set_LinMessageSize v o).
Hypothesis allowed_elapse : ∀ d, allowed (elapse d).
Hypothesis allowed_pop : allowed pop.
Hypothesis allowed_flush : allowed (log Flush).
Hypothesis allowed_end : allowed (log End_).

Lemma allowed_on_serial (f : HardwareSerial → HardwareSerial) :
  allowed f → keeps I (on_serial f).
Proof. intros Hf o Ho. by apply I_allowed. Qed.

Lemma allowed_modify (f : Lin_Interface → Lin_Interface) :
  (∀ o, I o → I (f o)) → keeps I (modify f).
Proof. intros Hf o Ho. by apply Hf. Qed.

Lemma allowed_LinMessage_set (i v : Z) : keeps I (LinMessage_set i v).
Proof.
  unfold LinMessage_set. destruct (_ && _); [|apply keeps_raise].
  apply allowed_modify. intros o Ho. by apply I_LinMessage.
Qed.

(** One step of a proof that receiving code keeps [I]. *)
Ltac allowed_step :=
  first
    [ apply keeps_ret | apply keeps_raise | apply keeps_gets
    | apply keeps_LinMessage_get | apply keeps_getChecksum | apply allowed_LinMessage_set
    | apply allowed_on_serial; first [apply allowed_elapse | apply allowed_pop
                                     | apply allowed_flush | apply allowed_end]
    | apply allowed_modify; intros ? ?;
        first [by apply I_LinMessage | by apply I_LinMessageID | by apply I_LinMessageSize]
    | apply keeps_while; intros ?
    | apply keeps_bind; [|intros ?]
    | match goal with
      | |- keeps _ (if ?c then _ else _) => destruct c
      | |- keeps _ (let '(_, _) := ?p in _) => destruct p
      | |- keeps _ (match ?n with Z0 => _ | Zpos _ => _ | Zneg _ => _ end) => destruct n
      | |- keeps _ (match ?p with xH => _ | xO _ => _ | xI _ => _ end) => destruct p
      end ].

Lemma allowed_read : keeps I read.
Proof. unfold read. repeat allowed_step. Qed.

Lemma allowed_millis : keeps I millis.
Proof. unfold millis. repeat allowed_step. Qed.

Lemma allowed_listen_body (l : Z * Z) : keeps I (listen_body l).
Proof.
  unfold listen_body, delay.
  repeat first [apply allowed_read | allowed_step].
Qed.

Lemma allowed_listenBus (LINSIMULATION : bool) (fuel : nat) :
  keeps I (listenBus LINSIMULATION fuel).
Proof.
  unfold listenBus, listen_collect, wait_for_data, wait_cond, wait_body, receive, drain,
    simulated_frame, listen_report, flush, available.
  repeat first [apply allowed_read | apply allowed_millis | apply allowed_listen_body
               | allowed_step].
Qed.

Lemma allowed_readFrame_tail (LINSIMULATION : bool) (fuel : nat) :
  keeps I (flush;; ChecksumValid ← listenBus LINSIMULATION fuel;
           end_;; delay 20;; mret ChecksumValid).
Proof.
  unfold flush, end_, delay.
  repeat first [apply allowed_listenBus | allowed_step].
Qed.

Lemma allowed_echo_check (fuel : nat) : keeps I (echo_check fuel).
Proof.
  unfold echo_check, echo_body, flush, end_, available.
  repeat first [apply allowed_read | allowed_step].
Qed.
End Allowed.

Lemma bus_bytes_app (cs cs' : list call) :
  bus_bytes (cs ++ cs') = bus_bytes cs ++ bus_bytes cs'.
Proof. apply omap_app. Qed.

Lemma bus_bytes_writes (bs : list Z) : bus_bytes (Write <$> bs) = bs.
Proof.
  induction bs as [|b bs IH]; [done|]. rewrite fmap_cons.
  change (bus_bytes (Write b :: (Write <$> bs))) with (b :: bus_bytes (Write <$> bs)).
  by rewrite IH.
Qed.

Lemma calls_elapse (d : Z) (h : HardwareSerial) : calls (elapse d h) = calls h.
Proof. unfold elapse. by destruct (arrive d (wire h)). Qed.

Lemma silent_elapse (d : Z) : silent_change (elapse d).
Proof. intros h. by rewrite calls_elapse. Qed.

Lemma silent_pop : silent_change pop.
Proof. by intros h. Qed.

Lemma silent_flush : silent_change (log Flush).
Proof. intros h. cbn. by rewrite bus_bytes_app, app_nil_r. Qed.

Lemma silent_end : silent_change (log End_).
Proof. intros h. cbn. by rewrite bus_bytes_app, app_nil_r. Qed.

Lemma sent_and_configured_change (bs : list Z) (v b r t : Z)
    (f : HardwareSerial → HardwareSerial) (o : Lin_Interface) :
  silent_change f → sent_and_configured bs v b r t o →
  sent_and_configured bs v b r t (set_serial (f (serial o)) o).
Proof. intros Hf (Hb & H). split; [|exact H]. cbn. by rewrite Hf. Qed.

(** X9: whatever arrives and however it ends, listenBus writes no byte to
    the bus and leaves verboseMode, baud, rxPin and txPin as they were. *)
Theorem listenBus_passive (LINSIMULATION : bool) (fuel : nat) (o : Lin_Interface) :
  let o' := snd (listenBus LINSIMULATION fuel o) in
  bus_bytes (calls (serial o')) = bus_bytes (calls (serial o))
  ∧ verboseMode o' = verboseMode o ∧ baud o' = baud o
  ∧ rxPin o' = rxPin o ∧ txPin o' = txPin o.
Proof.
  apply (allowed_listenBus
           (sent_and_configured (bus_bytes (calls (serial o))) (verboseMode o) (baud o)
                                (rxPin o) (txPin o))
           silent_change);
    try done.
  - intros f o1. apply sent_and_configured_change.
  - apply silent_elapse.
  - apply silent_flush.
Qed.

(** X10: whatever arrives and however it ends, the bytes readFrame writes
    to the bus are the break byte 0x00, the sync byte 0x55 and the protected
    identifier of FrameID, in this order and nothing more; verboseMode,
    baud, rxPin and txPin are left as they were. *)
Theorem readFrame_bus_bytes (LINSIMULATION : bool) (fuel : nat) (FrameID : Z)
    (o : Lin_Interface) :
  let o' := snd (readFrame LINSIMULATION fuel FrameID o) in
  bus_bytes (calls (serial o')) =
    bus_bytes (calls (serial o)) ++ [0x00; 0x55; getProtectedID FrameID]
  ∧ verboseMode o' = verboseMode o ∧ baud o' = baud o
  ∧ rxPin o' = rxPin o ∧ txPin o' = txPin o.
Proof.
  unfold readFrame.
  erewrite run_bind by apply startTransmission_exact.
  apply (allowed_readFrame_tail
           (sent_and_configured
              (bus_bytes (calls (serial o)) ++ [0x00; 0x55; getProtectedID FrameID])
              (verboseMode o) (baud o) (rxPin o) (txPin o))
           silent_change);
    try done.
  - intros f o1. apply sent_and_configured_change.
  - apply silent_elapse.
  - apply silent_flush.
  - apply silent_end.
  - split; [|done]. cbn [serial set_serial logs calls].
    rewrite calls_elapse, bus_bytes_app. reflexivity.
Qed.

Lemma writeFrame_bus (fuel : nat) (o : Lin_Interface) (FrameID dataLen : Z) :
  length (LinMessage o) = 13%nat → 0 ≤ dataLen ≤ 13 →
  let ProtectedID := getProtectedID FrameID in
  let data := take (Z.to_nat dataLen) (LinMessage o) in
  bus_bytes (calls (serial (snd (writeFrame fuel FrameID dataLen o)))) =
    bus_bytes (calls (serial o)) ++ [0x00; 0x55; ProtectedID] ++ data ++
    [checksum (kept_seed ProtectedID) data].
Proof.
  intros Hlen Hn ProtectedID data.
  rewrite writeFrame_transmits by done.
  match goal with |- context [echo_check fuel ?o1] =>
    pose proof (allowed_echo_check
      (sent_and_configured
         (bus_bytes (calls (serial o)) ++ [0x00; 0x55; ProtectedID] ++ data ++
          [checksum (kept_seed ProtectedID) data]) 1 (baud o) (rxPin o) (txPin o))
      silent_change) as Hk;
    destruct (Hk ltac:(intros f o2; apply sent_and_configured_change)
                 ltac:(done) silent_pop silent_flush silent_end fuel o1) as [Hb _]
  end; [|exact Hb].
  split; [|done]. cbn [serial set_serial set_verboseMode].
  rewrite calls_elapse. cbn [logs calls].
  rewrite calls_elapse, !bus_bytes_app, bus_bytes_writes. reflexivity.
Qed.

(** X11: for dataLen <= 13 and whatever is echoed, the bytes writeFrame
    writes to the bus are 0x00, 0x55, the protected identifier, the first
    dataLen bytes of the buffer and what getChecksum returns for the
    protected identifier over those bytes; the echo check writes nothing. *)
Theorem writeFrame_bus_bytes (fuel : nat) (o : Lin_Interface) (FrameID dataLen : Z) :
  length (LinMessage o) = 13%nat → 0 ≤ dataLen ≤ 13 →
  ∃ cksum : Z,
    getChecksum (getProtectedID FrameID) dataLen o = (Ok cksum, o)
    ∧ bus_bytes (calls (serial (snd (writeFrame fuel FrameID dataLen o)))) =
        bus_bytes (calls (serial o)) ++ [0x00; 0x55; getProtectedID FrameID] ++
        take (Z.to_nat dataLen) (LinMessage o) ++ [cksum].
Proof.
  intros Hlen Hn. eexists. split.
  - pose proof (getProtectedID_byte FrameID) as Hp. unfold is_byte in Hp.
    apply getChecksum_run; lia.
  - by rewrite writeFrame_bus.
Qed.

Lemma writeFrame_bus_bytes_witness :
  ∃ cksum : Z,
    getChecksum (getProtectedID 0x22) 8 (with_data payload (new_Lin_Interface (silent 0))) =
      (Ok cksum, with_data payload (new_Lin_Interface (silent 0)))
    ∧ bus_bytes (calls (serial (snd (writeFrame 14 0x22 8
                                       (with_data payload (new_Lin_Interface (silent 0))))))) =
        bus_bytes (calls (serial (with_data payload (new_Lin_Interface (silent 0))))) ++
        [0x00; 0x55; getProtectedID 0x22] ++
        take (Z.to_nat 8) (LinMessage (with_data payload (new_Lin_Interface (silent 0)))) ++
        [cksum].
Proof.
  apply (writeFrame_bus_bytes 14 (with_data payload (new_Lin_Interface (silent 0))) 0x22 8).
  - reflexivity.
  - lia.
Defined.

Lemma getProtectedID_low_bits (FrameID : Z) :
  0 ≤ FrameID < 256 → Z.land (getProtectedID FrameID) 0x3F = Z.land FrameID 0x3F.
Proof.
  intros H.
  assert (Hall : all_in_range low_bits_kept 0 256 = true) by (vm_compute; reflexivity).
  pose proof (all_in_range_spec _ _ _ FrameID Hall ltac:(lia)) as Hok.
  by apply Z.eqb_eq.
Qed.

(** X12: for a FrameID byte whose low six bits are 0x3C or more, writeFrame
    and writeFrameClassic write the same bytes to the bus: writeFrame falls
    back to the classic checksum by itself. *)
Theorem writeFrame_classic_for_0x3C (fuel : nat) (o : Lin_Interface) (FrameID dataLen : Z) :
  length (LinMessage o) = 13%nat → 0 ≤ dataLen ≤ 13 →
  0 ≤ FrameID < 256 → 0x3C ≤ Z.land FrameID 0x3F →
  bus_bytes (calls (serial (snd (writeFrame fuel FrameID dataLen o)))) =
  bus_bytes (calls (serial (snd (writeFrameClassic FrameID dataLen o)))).
Proof.
  intros Hlen Hn Hf Hclassic.
  rewrite writeFrame_bus, writeFrameClassic_run by done.
  cbn [snd serial set_serial logs calls].
  rewrite calls_elapse, !bus_bytes_app, bus_bytes_writes.
  assert (Hk : kept_seed (getProtectedID FrameID) = 0).
  { unfold kept_seed. rewrite getProtectedID_low_bits by done.
    destruct (Z.leb_spec 0x3C (Z.land FrameID 0x3F)); [done | lia]. }
  rewrite Hk. reflexivity.
Qed.

Lemma writeFrame_classic_for_0x3C_witness :
  bus_bytes (calls (serial (snd (writeFrame 14 0x3D 8
     (with_data payload (new_Lin_Interface (silent 0))))))) =
  bus_bytes (calls (serial (snd (writeFrameClassic 0x3D 8
     (with_data payload (new_Lin_Interface (silent 0))))))).
Proof.
  apply (writeFrame_classic_for_0x3C 14 (with_data payload (new_Lin_Interface (silent 0))) 0x3D 8).
  - reflexivity.
  - lia.
  - lia.
  - vm_compute. discriminate.
Defined.

(** ** One turn of the receive loop *)

Lemma stored_spec (n : nat) (data l : list Z) :
  (n + length data ≤ length l)%nat →
  stored n data l = take n l ++ data ++ drop (n + length data) l.
Proof.
  revert n l. induction data as [|b data IH]; intros n l Hlen; cbn [stored length] in *.
  - rewrite Nat.add_0_r. cbn [app]. by rewrite take_drop.
  - rewrite IH by (rewrite length_insert; lia).
    rewrite (take_S_r _ _ b) by (apply list_lookup_insert_eq; lia).
    rewrite take_insert_ge by lia. rewrite drop_insert_lt by lia.
    replace (n + S (length data))%nat with (S n + length data)%nat by lia.
    by rewrite <- (assoc_L (++)).
Qed.

Lemma stored_front (data l : list Z) :
  (length data ≤ length l)%nat → stored 0 data l = data ++ drop (length data) l.
Proof. intros Hlen. by rewrite stored_spec by (cbn; lia). Qed.

Lemma elapse_no_wire (d : Z) (h : HardwareSerial) :
  wire h = [] →
  elapse d h = {| clock := ulong (clock h + d); rx_fifo := rx_fifo h; wire := [];
                  calls := calls h |}.
Proof. intros Hw. unfold elapse. rewrite Hw. cbn. by rewrite app_nil_r. Qed.

(** After a byte is read, the loop waits 2 ms when the queue is empty; with
    nothing on the wire the queue is the rest of what it was. *)
Lemma after_read (h0 : HardwareSerial) (b : Z) (rest : list Z) :
  rx_fifo h0 = b :: rest → wire h0 = [] →
  ∃ h : HardwareSerial,
    rx_fifo h = rest ∧ wire h = [] ∧ calls h = calls h0
    ∧ ∀ (A : Type) (v : A) (o1 : Lin_Interface),
        serial o1 = pop h0 →
        (a ← available; (if negb a then delay 2 else mret tt);; mret v) o1 =
          (Ok v, set_serial h o1).
Proof.
  intros Hrx Hw. destruct rest as [|b' rest].
  - exists (elapse 2 (pop h0)). rewrite elapse_no_wire by done. cbn. rewrite Hrx.
    repeat split; try done.
    intros A v o1 Ho1. unfold_M. rewrite Ho1. cbn. rewrite Hrx. cbn.
    rewrite Ho1, elapse_no_wire by done. cbn. by rewrite Hrx.
  - exists (pop h0). cbn. rewrite Hrx. repeat split; try done.
    intros A v o1 Ho1. unfold_M. rewrite Ho1. cbn. rewrite Hrx. cbn.
    rewrite <- Ho1. by rewrite set_serial_same.
Qed.

Lemma listen_body_header (n ProtectedID : Z) (o : Lin_Interface) (b : Z) (rest : list Z) :
  rx_fifo (serial o) = b :: rest → wire (serial o) = [] → -4 ≤ n ≤ -1 →
  ∃ h : HardwareSerial,
    listen_body (n, ProtectedID) o =
      (Ok (Continue (seek_header (uint8 b) n ProtectedID)), set_serial h o)
    ∧ rx_fifo h = rest ∧ wire h = [] ∧ calls h = calls (serial o).
Proof.
  intros Hrx Hw Hn.
  destruct (after_read (serial o) b rest Hrx Hw) as (h & Hrx' & Hw' & Hc' & Htail).
  exists h. split; [|done].
  assert (Hcase : n = -4 ∨ n = -3 ∨ n = -2 ∨ n = -1) by lia.
  unfold listen_body.
  destruct Hcase as [-> | [-> | [-> | ->]]];
    match goal with |- context [8 + 1 <=? ?k] => change (8 + 1 <=? k) with false end;
    cbv beta iota;
    (erewrite run_bind;
      [| erewrite run_bind by apply read_run; rewrite Hrx; reflexivity]);
    by rewrite (Htail _ _ (set_serial (pop (serial o)) o) eq_refl).
Qed.

Lemma listen_body_data (n : nat) (ProtectedID : Z) (o : Lin_Interface) (b : Z) (rest : list Z) :
  rx_fifo (serial o) = b :: rest → wire (serial o) = [] → (n < 9)%nat → is_byte b →
  ∃ h : HardwareSerial,
    listen_body (Z.of_nat n, ProtectedID) o =
      (Ok (Continue (Z.of_nat (S n), ProtectedID)),
       set_LinMessage (<[n:=b]> (LinMessage o)) (set_serial h o))
    ∧ rx_fifo h = rest ∧ wire h = [] ∧ calls h = calls (serial o).
Proof.
  intros Hrx Hw Hn Hb.
  destruct (after_read (serial o) b rest Hrx Hw) as (h & Hrx' & Hw' & Hc' & Htail).
  exists h. split; [|done].
  unfold listen_body.
  replace (8 + 1 <=? Z.of_nat n) with false by (symmetry; apply Z.leb_gt; lia).
  erewrite run_bind.
  2:{ assert (Hdefault : ∀ m : M (Z * Z),
        match Z.of_nat n with
        | -4 | -3 | -2 | -1 => m
        | _ => r ← read; LinMessage_set (Z.of_nat n) (uint8 r);;
               mret (Z.of_nat n + 1, ProtectedID)
        end = (r ← read; LinMessage_set (Z.of_nat n) (uint8 r);;
               mret (Z.of_nat n + 1, ProtectedID))).
      { intros m. destruct (Z.of_nat n) eqn:E; [done | done | lia]. }
      rewrite Hdefault.
      erewrite run_bind by apply read_run. rewrite Hrx, uint8_small by done.
      unfold LinMessage_set, LinMessage_cells.
      replace ((0 <=? Z.of_nat n) && (Z.of_nat n <? 8 + 1 + 4)) with true
        by (symmetry; apply andb_true_iff; split; [apply Z.leb_le | apply Z.ltb_lt]; lia).
      erewrite run_bind by reflexivity. rewrite Nat2Z.id. reflexivity. }
  replace (Z.of_nat n + 1) with (Z.of_nat (S n)) by lia.
  by rewrite (Htail _ _ (set_LinMessage (<[n:=b]> (LinMessage o))
                                       (set_serial (pop (serial o)) o)) eq_refl).
Qed.

(** ** The receive loop on a queue of bytes *)

Lemma receive_from_step (fuel : nat) (l : Z * Z) (o : Lin_Interface) (b : Z) (rest : list Z) :
  rx_fifo (serial o) = b :: rest →
  receive_from (S fuel) l o =
    (r ← listen_body l;
     match r with Continue l' => receive_from fuel l' | Break l' => mret l' end) o.
Proof.
  intros Hrx. unfold receive_from. cbn [while_].
  erewrite run_bind by apply available_run. by rewrite Hrx.
Qed.

Lemma receive_from_stop (fuel : nat) (l : Z * Z) (o : Lin_Interface) :
  rx_fifo (serial o) = [] → receive_from (S fuel) l o = (Ok l, o).
Proof.
  intros Hrx. unfold receive_from. cbn [while_].
  erewrite run_bind by apply available_run. by rewrite Hrx.
Qed.

Lemma seek_header_noise (b ProtectedID : Z) :
  is_noise b → seek_header (uint8 b) (-4) ProtectedID = (-4, ProtectedID).
Proof.
  intros [Hb Hne]. rewrite uint8_small by done. unfold seek_header.
  destruct (Z.eqb_spec b 0); [done|]. cbn. by rewrite andb_false_r.
Qed.

(** Bytes other than 0x00 in front of the header are read and dropped. *)
Lemma receive_noise (noise rest : list Z) (cs : list call) (fuel : nat)
    (ProtectedID : Z) (o : Lin_Interface) :
  queue (noise ++ rest) cs (serial o) → Forall is_noise noise →
  ∃ h : HardwareSerial,
    queue rest cs h
    ∧ receive_from (length noise + fuel) (-4, ProtectedID) o =
        receive_from fuel (-4, ProtectedID) (set_serial h o).
Proof.
  revert o. induction noise as [|b noise IH]; intros o (Hrx & Hw & Hc) Hnoise.
  - exists (serial o). by rewrite set_serial_same.
  - apply Forall_cons_1 in Hnoise as [Hb Hnoise]. cbn [length Nat.add app] in *.
    destruct (listen_body_header (-4) ProtectedID o b (noise ++ rest) Hrx Hw ltac:(lia))
      as (h1 & Hrun & Hrx1 & Hw1 & Hc1).
    rewrite (receive_from_step _ _ _ _ _ Hrx).
    erewrite run_bind by exact Hrun. rewrite seek_header_noise by done.
    destruct (IH (set_serial h1 o)) as (h & Hq & Hloop); [split_and!; cbn; congruence | done |].
    exists h. split; [done|]. by rewrite Hloop, set_serial_twice.
Qed.

(** Break, sync and a non-zero identifier take the loop to the first data
    cell with the identifier captured. *)
Lemma receive_header (p : Z) (rest : list Z) (cs : list call) (fuel : nat)
    (ProtectedID : Z) (o : Lin_Interface) :
  queue (0x00 :: 0x55 :: p :: rest) cs (serial o) → is_noise p →
  ∃ h : HardwareSerial,
    queue rest cs h
    ∧ receive_from (3 + fuel) (-4, ProtectedID) o = receive_from fuel (0, p) (set_serial h o).
Proof.
  intros (Hrx & Hw & Hc) [Hp Hne]. cbn [Nat.add].
  destruct (listen_body_header (-4) ProtectedID o _ _ Hrx Hw ltac:(lia))
    as (h1 & Hrun1 & Hrx1 & Hw1 & Hc1).
  rewrite (receive_from_step _ _ _ _ _ Hrx). erewrite run_bind by exact Hrun1.
  change (seek_header (uint8 0) (-4) ProtectedID) with (-3, ProtectedID).
  destruct (listen_body_header (-3) ProtectedID (set_serial h1 o) _ _ Hrx1 Hw1 ltac:(lia))
    as (h2 & Hrun2 & Hrx2 & Hw2 & Hc2).
  rewrite (receive_from_step _ _ (set_serial h1 o) _ _ Hrx1). erewrite run_bind by exact Hrun2.
  change (seek_header (uint8 85) (-3) ProtectedID) with (-2, ProtectedID).
  rewrite set_serial_twice.
  destruct (listen_body_header (-2) ProtectedID (set_serial h2 o) _ _ Hrx2 Hw2 ltac:(lia))
    as (h3 & Hrun3 & Hrx3 & Hw3 & Hc3).
  rewrite (receive_from_step _ _ (set_serial h2 o) _ _ Hrx2). erewrite run_bind by exact Hrun3.
  rewrite set_serial_twice.
  assert (Hs : seek_header (uint8 p) (-2) ProtectedID = (0, p)).
  { rewrite uint8_small by done. unfold seek_header.
    destruct (Z.eqb_spec p 0); [done|]. cbn. by rewrite andb_false_r. }
  rewrite Hs. exists h3. split; [|done].
  split_and!; cbn in *; congruence.
Qed.

(** Up to nine bytes behind the identifier are stored from cell [n] on;
    with nine stored the loop leaves the rest in the queue. *)
Lemma receive_data (data extra : list Z) (cs : list call) (fuel n : nat)
    (ProtectedID : Z) (o : Lin_Interface) :
  queue (data ++ extra) cs (serial o) → Forall is_byte data →
  (n + length data ≤ 9)%nat → extra = [] ∨ (n + length data = 9)%nat →
  ∃ h : HardwareSerial,
    queue extra cs h
    ∧ receive_from (length data + S fuel) (Z.of_nat n, ProtectedID) o =
        (Ok (Z.of_nat (n + length data), ProtectedID),
         set_LinMessage (stored n data (LinMessage o)) (set_serial h o)).
Proof.
  revert n o. induction data as [|b data IH]; intros n o (Hrx & Hw & Hc) Hd Hn Hextra.
  - cbn [length Nat.add app stored] in *. rewrite Nat.add_0_r in *. exists (serial o).
    split; [done|].
    assert (Hsame : set_LinMessage (LinMessage o) (set_serial (serial o) o) = o)
      by (by destruct o).
    rewrite Hsame.
    destruct extra as [|x extra].
    + by apply receive_from_stop.
    + destruct Hextra as [?|Hnine]; [done|]. subst n.
      rewrite (receive_from_step _ _ _ _ _ Hrx). reflexivity.
  - apply Forall_cons_1 in Hd as [Hb Hd]. cbn [length Nat.add app stored] in *.
    destruct (listen_body_data n ProtectedID o b (data ++ extra) Hrx Hw ltac:(lia) Hb)
      as (h1 & Hrun & Hrx1 & Hw1 & Hc1).
    rewrite (receive_from_step _ _ _ _ _ Hrx). erewrite run_bind by exact Hrun.
    destruct (IH (S n) (set_LinMessage (<[n:=b]> (LinMessage o)) (set_serial h1 o)))
      as (h & Hq & Hloop);
      [split_and!; cbn; congruence | done | lia | destruct Hextra; [by left | right; lia] |].
    exists h. split; [done|]. rewrite Hloop.
    replace (S n + length data)%nat with (n + S (length data))%nat by lia.
    reflexivity.
Qed.

(** The drain loop leaves the receive queue empty. *)
Lemma drain_empties (bs : list Z) (cs : list call) (fuel : nat) (o : Lin_Interface) :
  queue bs cs (serial o) → (length bs < fuel)%nat →
  ∃ h : HardwareSerial, queue [] cs h ∧ drain fuel o = (Ok tt, set_serial h o).
Proof.
  unfold drain. revert fuel o.
  induction bs as [|b bs IH]; intros fuel o (Hrx & Hw & Hc) Hlen;
    (destruct fuel as [|fuel]; [cbn in Hlen; lia|]); cbn [while_];
    erewrite run_bind by apply available_run; rewrite Hrx.
  - exists (serial o). by rewrite set_serial_same.
  - erewrite run_bind by (erewrite run_bind by apply read_run; reflexivity).
    destruct (IH fuel (set_serial (pop (serial o)) o)) as (h & Hq & Hrun).
    { split_and!; cbn; [by rewrite Hrx | done | done]. }
    { cbn in Hlen. lia. }
    exists h. split; [done|]. by rewrite Hrun.
Qed.

(** With a byte already in the queue listenBus does not wait. *)
Lemma listen_collect_ready (b : Z) (bs : list Z) (cs : list call) (fuel : nat)
    (o : Lin_Interface) :
  queue (b :: bs) cs (serial o) → (0 < fuel)%nat →
  ∃ h : HardwareSerial,
    queue (b :: bs) (cs ++ [Flush]) h
    ∧ ∀ n ProtectedID o',
        receive_from fuel (-4, 0x00) (set_serial h o) = (Ok (n, ProtectedID), o') →
        listen_collect fuel o = (Ok (false, n, ProtectedID), o').
Proof.
  intros (Hrx & Hw & Hc) Hfuel.
  exists (log Flush (elapse 1 (serial o))).
  rewrite elapse_no_wire by done. split; [split_and!; cbn; congruence|].
  intros n ProtectedID o' Hloop. unfold listen_collect.
  erewrite run_bind by apply millis_run.
  erewrite run_bind by apply flush_run.
  rewrite elapse_no_wire by done. cbn [serial set_serial clock].
  erewrite run_bind.
  2:{ unfold wait_for_data. destruct fuel as [|fuel]; [lia|]. cbn [while_].
      erewrite run_bind by (unfold wait_cond; erewrite run_bind by apply available_run;
                            cbn; rewrite Hrx; reflexivity).
      reflexivity. }
  unfold receive. fold (receive_from fuel (-4, 0)).
  rewrite set_serial_twice. rewrite Hrx in Hloop.
  erewrite run_bind by exact Hloop. reflexivity.
Qed.

(** ** listenBus on a queue that holds a frame *)

Lemma frame_buffer (d : list Z) (c : Z) (l : list Z) :
  (length d < length l)%nat →
  stored 0 (d ++ [c]) l = d ++ c :: drop (length d + 1) l
  ∧ (d ++ c :: drop (length d + 1) l) !! length d = Some c
  ∧ take (length d) (d ++ c :: drop (length d + 1) l) = d.
Proof.
  intros Hlen. split_and!.
  - rewrite stored_front by (rewrite length_app; cbn; lia).
    rewrite length_app. cbn [length]. by rewrite <- (assoc_L (++)).
  - by apply list_lookup_middle.
  - by rewrite take_app_length.
Qed.

(** The whole of listenBus when the queue holds stray non-zero bytes, a
    header with a non-zero identifier [p], the data bytes [d], the checksum
    byte [c] and, behind nine bytes, more bytes. *)
Lemma listenBus_frame_run (fuel : nat) (o : Lin_Interface) (noise d extra : list Z)
    (p c : Z) (cs : list call) :
  queue (noise ++ [0x00; 0x55; p] ++ (d ++ [c]) ++ extra) cs (serial o) →
  length (LinMessage o) = 13%nat →
  Forall is_noise noise → is_noise p → Forall is_byte d → is_byte c →
  (length d ≤ 8)%nat → extra = [] ∨ length d = 8%nat →
  (length noise + length d + length extra + 5 ≤ fuel)%nat →
  ∃ h : HardwareSerial,
    queue [] (cs ++ [Flush]) h
    ∧ listenBus false fuel o =
        (Ok (bool_decide (c = checksum (kept_seed p) d)),
         set_LinMessageID (Z.land p 0x3F)
           (set_LinMessageSize (Z.of_nat (length d) + 1)
              (set_LinMessage (d ++ c :: drop (length d + 1) (LinMessage o))
                 (set_serial h o)))).
Proof.
  intros Hq Hlen Hnoise Hp Hd Hc Hd8 Hextra Hfuel.
  assert (Hne : ∃ b bs, noise ++ [0x00; 0x55; p] ++ (d ++ [c]) ++ extra = b :: bs)
    by (destruct noise; cbn; eauto).
  destruct Hne as (b0 & bs0 & Hall).
  destruct (listen_collect_ready b0 bs0 cs fuel o) as (h0 & Hq0 & Hcollect);
    [by rewrite <- Hall | lia |].
  rewrite <- Hall in Hq0.
  assert (Hk : ∃ k, fuel = (length noise + (3 + (length (d ++ [c]) + S k)))%nat).
  { exists (fuel - length noise - length d - 5)%nat. rewrite length_app. cbn. lia. }
  destruct Hk as [k Hk].
  destruct (receive_noise noise _ _ (3 + (length (d ++ [c]) + S k)) 0x00 (set_serial h0 o) Hq0 Hnoise)
    as (h1 & Hq1 & Hloop1).
  destruct (receive_header p _ _ (length (d ++ [c]) + S k) 0x00 (set_serial h1 o) Hq1 Hp)
    as (h2 & Hq2 & Hloop2).
  destruct (receive_data (d ++ [c]) extra _ k 0 p (set_serial h2 o) Hq2) as (h3 & Hq3 & Hloop3).
  { apply Forall_app. split; [done | by apply Forall_singleton]. }
  { rewrite length_app. cbn. lia. }
  { destruct Hextra as [?|Hl]; [by left | right; rewrite length_app; cbn; lia]. }
  rewrite set_serial_twice in Hloop1. rewrite set_serial_twice in Hloop2.
  cbn [LinMessage set_serial] in Hloop3. rewrite set_serial_twice in Hloop3.
  destruct (frame_buffer d c (LinMessage o) ltac:(lia)) as (Hbuf & Hcell & Htake).
  rewrite Hbuf in Hloop3. change (Z.of_nat 0) with 0 in Hloop3.
  assert (Hcol : listen_collect fuel o =
    (Ok (false, Z.of_nat (0 + length (d ++ [c])), p),
     set_LinMessage (d ++ c :: drop (length d + 1) (LinMessage o)) (set_serial h3 o))).
  { apply Hcollect. rewrite Hk at 1. by rewrite Hloop1, Hloop2, Hloop3. }
  unfold listenBus. erewrite run_bind by exact Hcol.
  erewrite run_bind by reflexivity.
  destruct (drain_empties extra (cs ++ [Flush]) fuel
              (set_LinMessage (d ++ c :: drop (length d + 1) (LinMessage o)) (set_serial h3 o)))
    as (h4 & Hq4 & Hdrain); [done | lia |].
  erewrite run_bind by exact Hdrain.
  exists h4. split; [done|].
  replace (Z.of_nat (0 + length (d ++ [c]))) with (Z.of_nat (length d) + 1)
    by (rewrite length_app; cbn; lia).
  erewrite run_bind.
  2:{ apply listen_report_value; [lia | apply Hp |].
      cbn [LinMessage set_serial set_LinMessage].
      replace (Z.to_nat (Z.of_nat (length d) + 1 - 1)) with (length d) by lia.
      by rewrite Hcell. }
  cbn [LinMessage set_serial set_LinMessage].
  replace (Z.to_nat (Z.of_nat (length d) + 1 - 1)) with (length d) by lia.
  rewrite Hcell, Htake. cbn [default]. reflexivity.
Qed.

Lemma listen_report_nothing (o : Lin_Interface) (n ProtectedID : Z) :
  n ≤ 0 →
  listen_report n ProtectedID o =
    (Ok false, set_LinMessageID (Z.land ProtectedID 0x3F) (set_LinMessageSize 0 o)).
Proof.
  intros Hn. unfold listen_report.
  replace (0 <? n) with false by (symmetry; apply Z.ltb_ge; lia). reflexivity.
Qed.

Lemma getProtectedID_not_zero (FrameID : Z) :
  0 ≤ FrameID < 256 → getProtectedID FrameID ≠ 0x00.
Proof.
  intros H.
  assert (Hall : all_in_range pid_not_zero 0 256 = true) by (vm_compute; reflexivity).
  pose proof (all_in_range_spec _ _ _ FrameID Hall ltac:(lia)) as Hok.
  apply negb_true_iff in Hok. by apply Z.eqb_neq.
Qed.

(** X13: stray bytes other than 0x00 in front of the header do not disturb
    the reception.  With such bytes, then 0x00 0x55, a non-zero identifier
    byte p, up to eight data bytes d and a last byte c in the receive queue,
    listenBus stores d and c at the front of the buffer, reports
    LinMessageID = p & 0x3F and LinMessageSize = |d| + 1, and returns true
    exactly when c is what getChecksum returns for p over d. *)
Theorem listenBus_skips_noise (fuel : nat) (o : Lin_Interface) (noise d : list Z) (p c : Z) :
  rx_fifo (serial o) = noise ++ [0x00; 0x55; p] ++ d ++ [c] → wire (serial o) = [] →
  length (LinMessage o) = 13%nat →
  Forall is_noise noise → is_noise p → Forall is_byte d → is_byte c →
  (length d ≤ 8)%nat → (length noise + length d + 5 ≤ fuel)%nat →
  ∃ (ck : Z) (o' : Lin_Interface),
    fst (getChecksum p (Z.of_nat (length d)) (with_data d o)) = Ok ck
    ∧ listenBus false fuel o = (Ok (bool_decide (c = ck)), o')
    ∧ LinMessage o' = d ++ c :: drop (length d + 1) (LinMessage o)
    ∧ LinMessageID o' = Z.land p 0x3F
    ∧ LinMessageSize o' = Z.of_nat (length d) + 1.
Proof.
  intros Hrx Hw Hlen Hnoise Hp Hd Hc Hd8 Hfuel.
  destruct (listenBus_frame_run fuel o noise d [] p c (calls (serial o)))
    as (h & Hq & Hrun); try done.
  - split_and!; [|done|done]. by rewrite Hrx, app_nil_r.
  - by left.
  - cbn. lia.
  - destruct (getChecksum_with_data o p d (proj1 Hp) ltac:(lia) Hd) as [_ Hck].
    eexists _, _. split; [by rewrite Hck|]. split; [exact Hrun | done].
Qed.

Lemma listenBus_skips_noise_witness :
  ∃ (ck : Z) (o' : Lin_Interface),
    fst (getChecksum 0xE2 (Z.of_nat (length payload))
           (with_data payload (new_Lin_Interface (received ([0x13; 0x7F] ++ frame_0x22))))) = Ok ck
    ∧ listenBus false 16 (new_Lin_Interface (received ([0x13; 0x7F] ++ frame_0x22))) =
        (Ok (bool_decide (0x57 = ck)), o')
    ∧ LinMessage o' =
        payload ++ 0x57 :: drop (length payload + 1)
                             (LinMessage (new_Lin_Interface (received ([0x13; 0x7F] ++ frame_0x22))))
    ∧ LinMessageID o' = Z.land 0xE2 0x3F
    ∧ LinMessageSize o' = Z.of_nat (length payload) + 1.
Proof.
  apply (listenBus_skips_noise 16 (new_Lin_Interface (received ([0x13; 0x7F] ++ frame_0x22)))
           [0x13; 0x7F] payload 0xE2 0x57).
  - reflexivity.
  - reflexivity.
  - reflexivity.
  - unfold is_noise, is_byte. repeat constructor; lia.
  - unfold is_noise, is_byte. repeat split; lia.
  - unfold is_byte. repeat constructor; lia.
  - unfold is_byte. lia.
  - cbn. lia.
  - cbn. lia.
Defined.

(** X14: when the receive queue holds, at the start of the call, break,
    sync, an identifier byte other than 0x00 and more than nine bytes behind
    it, and nothing further arrives during the call, listenBus keeps the first nine (eight data bytes and the byte
    taken as checksum), reads and drops the others whatever their number and
    value, leaves the cells 9 .. 12 of the buffer as they were and the
    receive queue empty. *)
Theorem listenBus_drops_overflow (fuel : nat) (o : Lin_Interface) (d extra : list Z) (p c : Z) :
  rx_fifo (serial o) = [0x00; 0x55; p] ++ d ++ [c] ++ extra → wire (serial o) = [] →
  length (LinMessage o) = 13%nat →
  is_noise p → Forall is_byte d → is_byte c → length d = 8%nat →
  (length extra + 13 ≤ fuel)%nat →
  ∃ (v : bool) (o' : Lin_Interface),
    listenBus false fuel o = (Ok v, o')
    ∧ LinMessage o' = d ++ c :: drop 9 (LinMessage o)
    ∧ LinMessageSize o' = 9
    ∧ rx_fifo (serial o') = [].
Proof.
  intros Hrx Hw Hlen Hp Hd Hc Hd8 Hfuel.
  destruct (listenBus_frame_run fuel o [] d extra p c (calls (serial o)))
    as (h & Hq & Hrun); try done.
  - split_and!; [|done|done]. rewrite Hrx. cbn. by rewrite <- (assoc_L (++)).
  - lia.
  - by right.
  - cbn. lia.
  - eexists _, _. split; [exact Hrun|]. cbn. rewrite Hd8. split_and!; [done | done | apply Hq].
Qed.

Lemma listenBus_drops_overflow_witness :
  ∃ (v : bool) (o' : Lin_Interface),
    listenBus false 16 (new_Lin_Interface (received (frame_0x22 ++ [0x01; 0x02; 0x03]))) =
      (Ok v, o')
    ∧ LinMessage o' =
        payload ++ 0x57 :: drop 9 (LinMessage (new_Lin_Interface
                                                 (received (frame_0x22 ++ [0x01; 0x02; 0x03]))))
    ∧ LinMessageSize o' = 9
    ∧ rx_fifo (serial o') = [].
Proof.
  apply (listenBus_drops_overflow 16
           (new_Lin_Interface (received (frame_0x22 ++ [0x01; 0x02; 0x03])))
           payload [0x01; 0x02; 0x03] 0xE2 0x57).
  - reflexivity.
  - reflexivity.
  - reflexivity.
  - unfold is_noise, is_byte. repeat split; lia.
  - unfold is_byte. repeat constructor; lia.
  - unfold is_byte. lia.
  - reflexivity.
  - cbn. lia.
Defined.

(** X15: what writeFrame writes to the bus, listenBus accepts.  When the
    receive queue of a listening object holds exactly the bytes a writeFrame
    of up to eight data bytes has written, listenBus returns true, reports
    the low six bits of FrameID and dataLen + 1, and its buffer starts with
    the data bytes sent. *)
Theorem listenBus_accepts_writeFrame (fuel fuel' : nat) (tx rx : Lin_Interface)
    (FrameID dataLen : Z) :
  length (LinMessage tx) = 13%nat → Forall is_byte (LinMessage tx) →
  calls (serial tx) = [] →
  0 ≤ FrameID < 256 → 0 ≤ dataLen ≤ 8 →
  rx_fifo (serial rx) = bus_bytes (calls (serial (snd (writeFrame fuel' FrameID dataLen tx)))) →
  wire (serial rx) = [] → length (LinMessage rx) = 13%nat →
  (Z.to_nat dataLen + 5 ≤ fuel)%nat →
  ∃ rx' : Lin_Interface,
    listenBus false fuel rx = (Ok true, rx')
    ∧ LinMessageID rx' = Z.land FrameID 0x3F
    ∧ LinMessageSize rx' = dataLen + 1
    ∧ take (Z.to_nat dataLen) (LinMessage rx') = take (Z.to_nat dataLen) (LinMessage tx).
Proof.
  intros Hlen Hbytes Hcalls Hf Hn Hrx Hw Hlen' Hfuel.
  rewrite writeFrame_bus, Hcalls in Hrx by (done || lia). cbn [bus_bytes omap app] in Hrx.
  set (d := take (Z.to_nat dataLen) (LinMessage tx)) in *.
  set (p := getProtectedID FrameID) in *.
  assert (Hdl : length d = Z.to_nat dataLen) by (subst d; rewrite length_take; lia).
  destruct (listenBus_frame_run fuel rx [] d [] p (checksum (kept_seed p) d) (calls (serial rx)))
    as (h & Hq & Hrun); try done.
  - split_and!; [|done|done]. rewrite Hrx. cbn. by rewrite app_nil_r.
  - split; [apply getProtectedID_byte | by apply getProtectedID_not_zero].
  - subst d. by apply Forall_take.
  - apply checksum_byte.
  - lia.
  - by left.
  - cbn. lia.
  - rewrite bool_decide_eq_true_2 in Hrun by done.
    eexists. split; [exact Hrun|]. cbn. split_and!.
    + subst p. by apply getProtectedID_low_bits.
    + lia.
    + rewrite <- Hdl. by rewrite take_app_length.
Qed.

Lemma listenBus_accepts_writeFrame_witness :
  ∃ rx' : Lin_Interface,
    listenBus false 13 (new_Lin_Interface (received frame_0x22)) = (Ok true, rx')
    ∧ LinMessageID rx' = Z.land 0x22 0x3F
    ∧ LinMessageSize rx' = 8 + 1
    ∧ take (Z.to_nat 8) (LinMessage rx') =
      take (Z.to_nat 8) (LinMessage (with_data payload (new_Lin_Interface (silent 0)))).
Proof.
  apply (listenBus_accepts_writeFrame 13 14
           (with_data payload (new_Lin_Interface (silent 0)))
           (new_Lin_Interface (received frame_0x22)) 0x22 8).
  - reflexivity.
  - unfold is_byte. cbn. repeat constructor; lia.
  - reflexivity.
  - lia.
  - lia.
  - vm_compute. reflexivity.
  - reflexivity.
  - reflexivity.
  - cbn. lia.
Defined.





(** ** Which indices listenBus uses *)

Lemma seek_header_range (buffer n ProtectedID : Z) :
  -4 ≤ (seek_header buffer n ProtectedID).1 ≤ 0.
Proof.
  unfold seek_header.
  repeat match goal with |- context [if ?c then _ else _] => destruct c end; cbn; lia.
Qed.

Lemma post_tail (P : fault → Prop) {A} (v : A) (Q : A → Prop) :
  Q v → post (a ← available; (if negb a then delay 2 else mret tt);; mret v) Q P.
Proof.
  intros Hv. eapply post_bind; [apply post_gets|]. intros a _.
  eapply (post_bind _ _ _ (λ _, True)).
  - destruct a; cbn; [by apply post_ret | apply post_modify].
  - intros _ _. by apply post_ret.
Qed.

Lemma post_listen_body (P : fault → Prop) (l : Z * Z) :
  -4 ≤ l.1 ≤ 9 →
  post (listen_body l) (λ r, match r with Continue l' | Break l' => -4 ≤ l'.1 ≤ 9 end) P.
Proof.
  destruct l as [n ProtectedID]. cbn [fst]. intros Hn. unfold listen_body.
  destruct (8 + 1 <=? n) eqn:Hfull; [by apply post_ret|].
  apply Z.leb_gt in Hfull.
  assert (Hcase : n = -4 ∨ n = -3 ∨ n = -2 ∨ n = -1 ∨ 0 ≤ n) by lia.
  destruct Hcase as [-> | [-> | [-> | [-> | Hpos]]]].
  1-4: eapply (post_bind _ _ _ (λ l', -4 ≤ l'.1 ≤ 9));
    [ eapply post_bind; [apply post_read|]; intros r _; cbv zeta; apply post_ret;
      match goal with |- context [seek_header ?b ?k ?q] =>
        pose proof (seek_header_range b k q) end; cbv beta; lia
    | intros l' Hl'; by apply post_tail ].
  eapply (post_bind _ _ _ (λ l', -4 ≤ l'.1 ≤ 9)).
  - destruct n as [|q|q]; [| |lia].
    + eapply post_bind; [apply post_read|]. intros r _.
      eapply post_bind; [apply post_LinMessage_set; lia|]. intros _ _.
      apply post_ret. cbn. lia.
    + eapply post_bind; [apply post_read|]. intros r _.
      eapply post_bind; [apply post_LinMessage_set; lia|]. intros _ _.
      apply post_ret. cbn. lia.
  - intros l' Hl'. by apply post_tail.
Qed.

Lemma post_listen_report (P : fault → Prop) (n ProtectedID : Z) :
  n ≤ 9 → post (listen_report n ProtectedID) (λ _, True) P.
Proof.
  intros Hn. unfold listen_report. destruct (0 <? n) eqn:Hpos.
  - apply Z.ltb_lt in Hpos.
    eapply post_bind; [apply post_LinMessage_get; intros; lia|]. intros Checksum _.
    eapply post_bind; [apply post_getChecksum; rewrite uint8_small by lia; lia|]. intros c _.
    eapply post_bind; [apply post_modify|]. intros _ _.
    eapply post_bind; [apply post_modify|]. intros _ _.
    by apply post_ret.
  - eapply post_bind; [apply post_modify|]. intros _ _.
    eapply post_bind; [apply post_modify|]. intros _ _.
    by apply post_ret.
Qed.

Lemma post_millis (P : fault → Prop) : post millis (λ _, True) P.
Proof.
  unfold millis. eapply post_bind; [apply post_modify|]. intros _ _. apply post_gets.
Qed.

Lemma post_wait_for_data (P : fault → Prop) (fuel : nat) (timeoutAt : Z) :
  P OutOfFuel → post (wait_for_data fuel timeoutAt) (λ _, True) P.
Proof.
  intros HP. unfold wait_for_data. apply (post_while P (λ _, True)); [done | | | done].
  - intros t. unfold wait_cond. eapply post_bind; [apply post_gets|]. intros a _.
    by apply post_ret.
  - intros t _. unfold wait_body. eapply post_bind; [apply post_millis|]. intros now _.
    by apply post_ret.
Qed.

Lemma post_receive (P : fault → Prop) (fuel : nat) :
  P OutOfFuel → post (receive fuel) (λ l, -4 ≤ l.1 ≤ 9) P.
Proof.
  intros HP. unfold receive.
  apply (post_while P (λ l : Z * Z, -4 ≤ l.1 ≤ 9)); [done | | | cbn; lia].
  - intros l. apply post_gets.
  - intros l Hl. by apply post_listen_body.
Qed.

Lemma post_drain (P : fault → Prop) (fuel : nat) :
  P OutOfFuel → post (drain fuel) (λ _, True) P.
Proof.
  intros HP. unfold drain. apply (post_while P (λ _, True)); [done | | | done].
  - intros t. apply post_gets.
  - intros t _. eapply post_bind; [apply post_read|]. intros r _. by apply post_ret.
Qed.

Lemma post_simulated_frame (P : fault → Prop) (l : bool * Z * Z) :
  l.1.2 ≤ 9 → post (simulated_frame l) (λ l', l'.1.2 ≤ 9) P.
Proof.
  destruct l as [[timedOut n] ProtectedID]. cbn [fst snd]. intros Hn.
  unfold simulated_frame. destruct timedOut; [|by apply post_ret].
  cbv zeta.
  eapply post_bind; [apply post_modify|]. intros _ _.
  eapply post_bind; [apply post_modify|]. intros _ _.
  eapply post_bind; [apply post_modify|]. intros _ _.
  eapply post_bind; [apply post_getChecksum; vm_compute; split; discriminate|]. intros c _.
  eapply post_bind; [apply post_LinMessage_set; lia|]. intros _ _.
  apply post_ret. cbn. lia.
Qed.

Lemma post_listenBus (LINSIMULATION : bool) (fuel : nat) :
  post (listenBus LINSIMULATION fuel) (λ _, True) (λ e, e = OutOfFuel).
Proof.
  set (P := λ e, e = OutOfFuel).
  unfold listenBus.
  eapply (post_bind _ _ _ (λ l : bool * Z * Z, l.1.2 ≤ 9)).
  { unfold listen_collect. cbv zeta.
    eapply post_bind; [apply post_millis|]. intros now _.
    eapply post_bind; [apply post_modify|]. intros _ _.
    eapply post_bind; [by apply post_wait_for_data|]. intros timedOut _.
    eapply post_bind; [by apply post_receive|]. intros [n ProtectedID] Hn.
    apply post_ret. cbn in *. lia. }
  intros l Hl.
  eapply (post_bind _ _ _ (λ l : bool * Z * Z, l.1.2 ≤ 9)).
  { destruct LINSIMULATION; [by apply post_simulated_frame | by apply post_ret]. }
  intros [[timedOut' n'] ProtectedID'] Hn'. cbn [fst snd] in Hn'.
  eapply post_bind; [by apply post_drain|]. intros _ _.
  eapply post_bind; [by apply post_listen_report|]. intros v _. by apply post_ret.
Qed.

(** X18: whatever arrives, listenBus and readFrame never index the buffer
    outside its 13 cells. *)
Theorem listenBus_indices_in_bounds (LINSIMULATION : bool) (fuel : nat) (FrameID : Z)
    (o : Lin_Interface) (i : Z) :
  fst (listenBus LINSIMULATION fuel o) ≠ Fault (OutOfBounds i)
  ∧ fst (readFrame LINSIMULATION fuel FrameID o) ≠ Fault (OutOfBounds i).
Proof.
  split.
  - pose proof (post_listenBus LINSIMULATION fuel o) as H.
    destruct (listenBus LINSIMULATION fuel o).1; [done|]. by subst.
  - unfold readFrame.
    erewrite run_bind by apply startTransmission_exact.
    erewrite run_bind by reflexivity.
    match goal with |- context [mbind _ (listenBus _ _) ?o1] =>
      pose proof (post_listenBus LINSIMULATION fuel o1) as H;
      unfold mbind at 1, M_bind at 1;
      destruct (listenBus LINSIMULATION fuel o1) as [[v|e] o2]
    end; cbn in *; [done | by subst].
Qed.

(** ** The echo check on the echo of the frame *)

Lemma cleared_pop (h : HardwareSerial) : cleared (pop h) = cleared h.
Proof. reflexivity. Qed.

Lemma echo_body_run (moreData : bool) (n : nat) (o : Lin_Interface) (b : Z) (rest : list Z) :
  rx_fifo (serial o) = b :: rest → (n < 13)%nat → is_byte b →
  echo_body (moreData, Z.of_nat n) o =
    (Ok (Continue (moreData, Z.of_nat (S n))),
     set_LinMessage (<[n:=b]> (LinMessage o)) (set_serial (pop (serial o)) o)).
Proof.
  intros Hrx Hn Hb. unfold echo_body.
  replace (8 + 1 + 4 <=? Z.of_nat n) with false by (symmetry; apply Z.leb_gt; lia).
  erewrite run_bind by apply read_run. rewrite Hrx, uint8_small by done.
  unfold LinMessage_set, LinMessage_cells.
  replace ((0 <=? Z.of_nat n) && (Z.of_nat n <? 8 + 1 + 4)) with true
    by (symmetry; apply andb_true_iff; split; [apply Z.leb_le | apply Z.ltb_lt]; lia).
  erewrite run_bind by reflexivity. rewrite Nat2Z.id.
  replace (Z.of_nat n + 1) with (Z.of_nat (S n)) by lia. reflexivity.
Qed.

(** The read-back loop stores the queue in the buffer, from cell [n] on. *)
Lemma echo_loop_run (data : list Z) (n fuel : nat) (moreData : bool) (o : Lin_Interface) :
  rx_fifo (serial o) = data → Forall is_byte data → (n + length data ≤ 13)%nat →
  while_ (length data + S fuel) (λ _, available) echo_body (moreData, Z.of_nat n) o =
    (Ok (moreData, Z.of_nat (n + length data)),
     set_LinMessage (stored n data (LinMessage o)) (set_serial (cleared (serial o)) o)).
Proof.
  revert n o. induction data as [|b data IH]; intros n o Hrx Hd Hn.
  - cbn [length Nat.add while_ stored]. erewrite run_bind by apply available_run.
    rewrite Hrx, Nat.add_0_r.
    assert (Hc : cleared (serial o) = serial o) by (unfold cleared; rewrite <- Hrx; by destruct (serial o)).
    rewrite Hc. by destruct o.
  - apply Forall_cons_1 in Hd as [Hb Hd]. cbn [length Nat.add while_ stored] in *.
    erewrite run_bind by apply available_run. rewrite Hrx.
    erewrite run_bind by (apply (echo_body_run _ _ _ b data); [done | lia | done]).
    cbv beta iota. rewrite IH; [| cbn; by rewrite Hrx | done | lia].
    replace (S n + length data)%nat with (n + S (length data))%nat by lia.
    reflexivity.
Qed.

(** The echo check when the queue holds break, sync, identifier, the data
    bytes and a last byte. *)
Lemma echo_check_run (fuel : nat) (o : Lin_Interface) (brk sync p : Z) (d : list Z) (c : Z) :
  rx_fifo (serial o) = brk :: sync :: p :: d ++ [c] →
  length (LinMessage o) = 13%nat →
  is_byte sync → is_byte p → Forall is_byte d → is_byte c →
  (length d ≤ 12)%nat → (length d + 2 ≤ fuel)%nat →
  echo_check fuel o =
    (Ok (sync, p, false, c, checksum (kept_seed p) d),
     set_LinMessage (d ++ c :: drop (length d + 1) (LinMessage o))
       (set_serial (logs [Flush; End_] (cleared (serial o))) o)).
Proof.
  intros Hrx Hlen Hsync Hp Hd Hc Hd12 Hfuel. unfold echo_check.
  erewrite run_bind by apply available_run. rewrite Hrx.
  erewrite run_bind by (erewrite run_bind by apply read_run; reflexivity).
  erewrite run_bind by apply available_run. cbn [serial set_serial pop rx_fifo]. rewrite Hrx.
  cbn [tail].
  erewrite run_bind by (erewrite run_bind by apply read_run; cbn [serial set_serial pop rx_fifo];
                        rewrite Hrx; reflexivity).
  erewrite run_bind by apply available_run. cbn [serial set_serial pop rx_fifo]. rewrite Hrx.
  cbn [tail].
  erewrite run_bind by (erewrite run_bind by apply read_run; cbn [serial set_serial pop rx_fifo];
                        rewrite Hrx; reflexivity).
  cbn [tail]. rewrite !uint8_small by done. rewrite !set_serial_twice.
  assert (Hk : ∃ k, fuel = (length (d ++ [c]) + S k)%nat)
    by (exists (fuel - length d - 2)%nat; rewrite length_app; cbn; lia).
  destruct Hk as [k ->].
  change 0 with (Z.of_nat 0) at 1.
  erewrite run_bind.
  2:{ apply echo_loop_run.
      - cbn. by rewrite Hrx.
      - apply Forall_app. split; [done | by apply Forall_singleton].
      - rewrite length_app. cbn. lia. }
  cbn [LinMessage serial set_serial].
  destruct (frame_buffer d c (LinMessage o) ltac:(lia)) as (Hbuf & Hcell & Htake).
  rewrite Hbuf.
  replace (Z.of_nat (0 + length (d ++ [c])) - 1) with (Z.of_nat (length d))
    by (rewrite length_app; cbn; lia).
  erewrite run_bind by (apply LinMessage_get_run; lia).
  cbn [LinMessage set_LinMessage]. rewrite Hcell. cbn [default].
  erewrite run_bind by reflexivity.
  erewrite run_bind by reflexivity.
  rewrite uint8_small by lia.
  erewrite run_bind by (apply getChecksum_run; unfold is_byte in *; lia).
  cbn [LinMessage set_LinMessage serial set_serial]. rewrite Nat2Z.id, Htake.
  rewrite !log_logs, !logs_logs. reflexivity.
Qed.

(** X19: when 30 ms after the start of writeFrame (the 20 ms of
    setupSerial and the 10 ms before the echo check) the receive queue
    holds exactly the echo of the frame written, the echo check finds sync
    0x55, the protected identifier, no further data, and an echoed checksum
    equal to the recomputed one.  The buffer then holds the echo: the data
    bytes and, in the cell behind them, the checksum; verboseMode is 1 and
    the receive queue is empty. *)
Theorem writeFrame_echo_round_trip (fuel : nat) (o : Lin_Interface) (FrameID dataLen cksum : Z) :
  length (LinMessage o) = 13%nat → Forall is_byte (LinMessage o) →
  0 ≤ dataLen ≤ 12 →
  getChecksum (getProtectedID FrameID) dataLen o = (Ok cksum, o) →
  rx_fifo (elapse 10 (elapse 20 (serial o))) =
    [0x00; 0x55; getProtectedID FrameID] ++ take (Z.to_nat dataLen) (LinMessage o) ++ [cksum] →
  (Z.to_nat dataLen + 2 ≤ fuel)%nat →
  ∃ o' : Lin_Interface,
    writeFrame fuel FrameID dataLen o =
      (Ok (0x55, getProtectedID FrameID, false, cksum, cksum), o')
    ∧ LinMessage o' =
        take (Z.to_nat dataLen) (LinMessage o) ++
        cksum :: drop (Z.to_nat dataLen + 1) (LinMessage o)
    ∧ verboseMode o' = 1
    ∧ rx_fifo (serial o') = [].
Proof.
  intros Hlen Hbytes Hn Hck Hrx Hfuel.
  pose proof (getProtectedID_byte FrameID) as Hp.
  rewrite getChecksum_run in Hck by (unfold is_byte in Hp; lia).
  injection Hck as <-.
  set (d := take (Z.to_nat dataLen) (LinMessage o)) in *.
  assert (Hdl : length d = Z.to_nat dataLen) by (subst d; rewrite length_take; lia).
  rewrite writeFrame_transmits by (done || lia). cbv zeta. fold d.
  erewrite echo_check_run with (brk := 0x00) (d := d).
  - eexists. split; [reflexivity|]. cbn. rewrite Hdl. done.
  - cbn [serial set_serial set_verboseMode]. rewrite elapse_logs. cbn [rx_fifo logs].
    by rewrite Hrx.
  - done.
  - unfold is_byte. lia.
  - done.
  - subst d. by apply Forall_take.
  - apply checksum_byte.
  - lia.
  - lia.
Qed.

Lemma writeFrame_echo_round_trip_witness :
  ∃ o' : Lin_Interface,
    writeFrame 14 0x22 8 (with_data payload (new_Lin_Interface (received frame_0x22))) =
      (Ok (0x55, getProtectedID 0x22, false, 0x57, 0x57), o')
    ∧ LinMessage o' =
        take (Z.to_nat 8)
          (LinMessage (with_data payload (new_Lin_Interface (received frame_0x22)))) ++
        0x57 :: drop (Z.to_nat 8 + 1)
                  (LinMessage (with_data payload (new_Lin_Interface (received frame_0x22))))
    ∧ verboseMode o' = 1
    ∧ rx_fifo (serial o') = [].
Proof.
  apply (writeFrame_echo_round_trip 14
           (with_data payload (new_Lin_Interface (received frame_0x22))) 0x22 8 0x57).
  - reflexivity.
  - unfold is_byte. cbn. repeat constructor; lia.
  - lia.
  - vm_compute. reflexivity.
  - vm_compute. reflexivity.
  - cbn. lia.
Defined.

(** ** The wait for the first byte, once more *)

(** X20: on a bus on which nothing arrives, and unless the deadline
    millis() + 500 is 0xFFFFFFFF, listenBus returns false with
    LinMessageSize = 0 and LinMessageID = 0, no later than the 502nd turn of
    its wait loop, and leaves the buffer as it was. *)
Theorem listenBus_silent_bus (fuel : nat) (o : Lin_Interface) :
  rx_fifo (serial o) = [] → wire (serial o) = [] →
  ulong (ulong (clock (serial o) + 1) + 500) ≠ 2 ^ 32 - 1 →
  (502 ≤ fuel)%nat →
  ∃ o' : Lin_Interface,
    listenBus false fuel o = (Ok false, o')
    ∧ LinMessageSize o' = 0 ∧ LinMessageID o' = 0
    ∧ LinMessage o' = LinMessage o.
Proof.
  intros Hrx Hw Hd Hfuel.
  destruct (listen_collect_times_out fuel o Hrx Hw Hd Hfuel) as (h & Hrun & Hrx').
  unfold listenBus.
  erewrite run_bind by exact Hrun.
  erewrite run_bind by reflexivity.
  destruct (drain_run fuel (set_serial h o)) as [h' Hdrain].
  { cbn. rewrite Hrx'. cbn. lia. }
  erewrite run_bind by exact Hdrain.
  erewrite run_bind by (apply listen_report_nothing; lia).
  eexists. split; [reflexivity | done].
Qed.

Lemma listenBus_silent_bus_witness :
  ∃ o' : Lin_Interface,
    listenBus false 502 (new_Lin_Interface (silent 1000)) = (Ok false, o')
    ∧ LinMessageSize o' = 0 ∧ LinMessageID o' = 0
    ∧ LinMessage o' = LinMessage (new_Lin_Interface (silent 1000)).
Proof.
  apply (listenBus_silent_bus 502 (new_Lin_Interface (silent 1000))).
  - reflexivity.
  - reflexivity.
  - vm_compute. discriminate.
  - lia.
Defined.

Lemma drain_idle (fuel : nat) (o : Lin_Interface) :
  rx_fifo (serial o) = [] → (0 < fuel)%nat → drain fuel o = (Ok tt, o).
Proof.
  intros Hrx Hfuel. unfold drain. destruct fuel as [|fuel]; [lia|]. cbn [while_].
  erewrite run_bind by apply available_run. by rewrite Hrx.
Qed.

Lemma elapse_early (d gap b : Z) (w : list (Z * Z)) (h : HardwareSerial) :
  wire h = (gap, b) :: w → d < gap →
  elapse d h = {| clock := ulong (clock h + d); rx_fifo := rx_fifo h;
                  wire := (gap - d, b) :: w; calls := calls h |}.
Proof.
  intros Hw Hd. unfold elapse. rewrite Hw. cbn [arrive].
  replace (gap <=? d) with false by (symmetry; apply Z.leb_gt; lia).
  by rewrite app_nil_r.
Qed.

(** X21: when millis() + 500 wraps around the 32-bit clock, the wait ends
    on its first turn: a byte that arrives more than 2 ms after the call,
    however early within the 500 ms, is not waited for, and listenBus
    returns false with LinMessageSize = 0. *)
Theorem listenBus_deadline_wraps (fuel : nat) (o : Lin_Interface) (gap b : Z)
    (w : list (Z * Z)) :
  rx_fifo (serial o) = [] → wire (serial o) = (gap, b) :: w → 2 < gap →
  2 ^ 32 - 501 ≤ clock (serial o) ≤ 2 ^ 32 - 3 →
  (2 ≤ fuel)%nat →
  ∃ o' : Lin_Interface,
    listenBus false fuel o = (Ok false, o')
    ∧ LinMessageSize o' = 0 ∧ LinMessageID o' = 0
    ∧ wire (serial o') = (gap - 2, b) :: w.
Proof.
  intros Hrx Hw Hgap Hclock Hfuel.
  destruct fuel as [|[|fuel]]; [lia | lia |].
  assert (Hcol : listen_collect (S (S fuel)) o =
    (Ok (true, -4, 0x00),
     set_serial {| clock := ulong (ulong (clock (serial o) + 1) + 1); rx_fifo := [];
                   wire := (gap - 1 - 1, b) :: w; calls := calls (serial o) ++ [Flush] |} o)).
  { unfold listen_collect.
    erewrite run_bind by apply millis_run.
    erewrite run_bind by apply flush_run.
    rewrite (elapse_early 1 gap b w) by (done || lia). cbn [clock serial set_serial log].
    rewrite Hrx.
    erewrite run_bind.
    2:{ unfold wait_for_data. cbn [while_].
        erewrite run_bind by (by apply wait_cond_run). cbn [negb].
        erewrite run_bind by apply wait_body_run.
        cbn [serial set_serial].
        rewrite (elapse_early 1 (gap - 1) b w) by (done || lia). cbn [clock rx_fifo].
        replace (_ <? _) with true.
        - erewrite run_bind by (by apply wait_cond_run). reflexivity.
        - symmetry. apply Z.ltb_lt. unfold ulong. change (2 ^ 32) with 4294967296 in *.
          rewrite (Z.mod_small (clock (serial o) + 1)) by lia.
          rewrite (Z.mod_small (clock (serial o) + 1 + 1)) by lia.
          replace ((clock (serial o) + 1 + 500) `mod` 4294967296)
            with (clock (serial o) + 1 + 500 - 4294967296)
            by (apply (Z.mod_unique_pos _ _ 1); lia).
          lia. }
    erewrite run_bind by (by apply receive_idle; [|lia]).
    reflexivity. }
  unfold listenBus. erewrite run_bind by exact Hcol.
  erewrite run_bind by reflexivity.
  cbv beta iota.
  erewrite run_bind by (apply drain_idle; [done | lia]).
  erewrite run_bind by (apply listen_report_nothing; lia).
  eexists. split; [reflexivity|]. cbn. split_and!; try done. do 2 f_equal. lia.
Qed.

Lemma listenBus_deadline_wraps_witness :
  ∃ o' : Lin_Interface,
    listenBus false 2
      (new_Lin_Interface {| clock := 2 ^ 32 - 100; rx_fifo := []; wire := [(50, 0x00)];
                            calls := [] |}) = (Ok false, o')
    ∧ LinMessageSize o' = 0 ∧ LinMessageID o' = 0
    ∧ wire (serial o') = [(50 - 2, 0x00)].
Proof.
  apply (listenBus_deadline_wraps 2
           (new_Lin_Interface {| clock := 2 ^ 32 - 100; rx_fifo := []; wire := [(50, 0x00)];
                                 calls := [] |}) 50 0x00 []).
  - reflexivity.
  - reflexivity.
  - lia.
  - cbn. lia.
  - lia.
Defined.

(** ** Sending from beyond the buffer *)

(** Where the model with faults stops when dataLen is above 13: at the first
    read of the buffer, in the checksum, before any call on the transport. *)
Lemma getChecksum_outside (o : Lin_Interface) (ProtectedID dataLen : Z) :
  13 < dataLen →
  getChecksum ProtectedID dataLen o = (Fault (OutOfBounds (dataLen - 1)), o).
Proof.
  intros Hn. unfold getChecksum.
  erewrite run_bind_fault'; [reflexivity|].
  rewrite sum_bytes_outside by lia. repeat f_equal. lia.
Qed.

Lemma writeFrame_first_read_outside (fuel : nat) (o : Lin_Interface) (FrameID dataLen : Z) :
  13 < dataLen →
  writeFrame fuel FrameID dataLen o = (Fault (OutOfBounds (dataLen - 1)), o)
  ∧ writeFrameClassic FrameID dataLen o = (Fault (OutOfBounds (dataLen - 1)), o).
Proof.
  intros Hn. split.
  - unfold writeFrame. erewrite run_bind_fault' by (by apply getChecksum_outside). reflexivity.
  - unfold writeFrameClassic.
    erewrite run_bind_fault' by (by apply getChecksum_outside). reflexivity.
Qed.




